(** * mlio data insights: the per-column statistics accumulator

    A shallow embedding of [src/mlio-py/mlio/core/insights.cxx] (the
    accumulator [column_analysis], the per-cell update of
    [column_analyzer::operator()] and the driver [analyze_dataset]) and of
    the string helpers of [src/mlio/util/string.cxx] it calls. *)

From Stdlib Require Import ZArith Floats Ascii String DecimalString.
From stdpp Require Import base decidable list strings gmap.

Local Open Scope Z_scope.

(** ** Machine integers

    The counters are C++ [long]: 64 bits, two's complement (LP64).  Their
    increment is modelled with the wrap-around written out. *)

Definition long_wrap (z : Z) : Z := (z + 2 ^ 63) `mod` 2 ^ 64 - 2 ^ 63.

Definition long_add (x y : Z) : Z := long_wrap (x + y).

(** ** [mlio/util/string.cxx] *)

Module StringUtil.

(** [std::isspace] in the "C" locale: space, \t, \n, \v, \f and \r. *)
Definition isspace (ch : ascii) : bool :=
  let n := nat_of_ascii ch in
  (n =? 32)%nat || ((9 <=? n)%nat && (n <=? 13)%nat).

(** [::tolower] in the "C" locale. *)
Definition tolower (ch : ascii) : ascii :=
  let n := nat_of_ascii ch in
  if ((65 <=? n)%nat && (n <=? 90)%nat)%bool then ascii_of_nat (n + 32) else ch.

(** [std::find_if_not(first, last, p) - first]. *)
Fixpoint find_if_not (p : ascii -> bool) (s : list ascii) : nat :=
  match s with
  | [] => 0%nat
  | ch :: rest => if p ch then S (find_if_not p rest) else 0%nat
  end.

Definition find_first_non_space (s : list ascii) : nat :=
  find_if_not isspace s.

(** [s.remove_prefix(offset)] *)
Definition ltrim (s : list ascii) : list ascii :=
  let offset := find_first_non_space s in
  drop offset s.

(** [s.remove_suffix(offset)], the offset found from the reverse iterators. *)
Definition rtrim (s : list ascii) : list ascii :=
  let offset := find_first_non_space (rev s) in
  take (length s - offset) s.

(** [trim] works on its own copy of the view and returns the trimmed view. *)
Definition trim (s : string) : string :=
  string_of_list_ascii (rtrim (ltrim (list_ascii_of_string s))).

(** [matches]: the view returned by [trim(local_copy)] is dropped, the
    look-up uses [local_copy] itself. *)
Definition matches (s : string) (match_values : gset string) : bool :=
  let local_copy := s in
  let _ := trim local_copy in
  bool_decide (local_copy ∈ match_values).

Definition only_whitespace (s : string) : bool :=
  let l := list_ascii_of_string s in
  let pos := find_if_not isspace l in
  (pos =? length l)%nat.

End StringUtil.

(** [std::transform(as_string.begin(), as_string.end(),
    lowercase_string.begin(), ::tolower)] *)
Fixpoint transform_tolower (s : string) : string :=
  match s with
  | EmptyString => EmptyString
  | String ch rest => String (StringUtil.tolower ch) (transform_tolower rest)
  end.

(** ** The accumulator *)

Record column_analysis := Build_column_analysis {
  column_name : string;
  rows_seen : Z;
  numeric_mean : float;
  numeric_count : Z;
  numeric_nan_count : Z;
  numeric_min : float;
  numeric_max : float;
  string_empty_count : Z;
  string_only_whitespace_count : Z;
  string_null_like_count : Z;
  string_captured_unique_values : gset string;
  string_captured_unique_values_overflowed : bool;
  null_empty_count : Z;
  null_like_count : Z;
  null_whitespace_only_count : Z;
  example_value : string
}.

(** The constructor [column_analysis(std::string name)]. *)
Definition new_column_analysis (name : string) : column_analysis :=
  {| column_name := name;
     rows_seen := 0;
     numeric_mean := 0%float;
     numeric_count := 0;
     numeric_nan_count := 0;
     numeric_min := nan;
     numeric_max := nan;
     string_empty_count := 0;
     string_only_whitespace_count := 0;
     string_null_like_count := 0;
     string_captured_unique_values := ∅;
     string_captured_unique_values_overflowed := false;
     null_empty_count := 0;
     null_like_count := 0;
     null_whitespace_only_count := 0;
     example_value := "" |}.

(** ** Collaborators outside this translation unit *)

Inductive data_type :=
  | dt_size | dt_float16 | dt_float32 | dt_float64
  | dt_sint8 | dt_sint16 | dt_sint32 | dt_sint64
  | dt_uint8 | dt_uint16 | dt_uint32 | dt_uint64
  | dt_string.

(** A dense tensor: its [dtype()] and, for a string tensor, the cells that
    [data().as<std::string>()] yields. *)
Record tensor := { dtype : data_type; cells_of : list string }.

(** A [feature_desc]; the driver reads only its [name()]. *)
Record feature_desc := { name : string }.

(** An [example]: [get_schema().descriptors()] and [features()]. *)
Record example := { descriptors : list feature_desc; features : list tensor }.

Inductive exn :=
  | runtime_error (what : string)
  | out_of_range
  | invalid_argument.

(** Modelled from the spec: [device_array_span::as<T>()] is declared in
    mlio's device_array headers, which are not part of these sources.  The
    spec (section 3) says a batch whose column is not of the string type
    makes the run fail; the model raises [invalid_argument] there. *)
Definition as_strings (t : tensor) : exn + list string :=
  match dtype t with
  | dt_string => inr (cells_of t)
  | _ => inl invalid_argument
  end.

(** ** [column_analyzer] *)

Section ColumnAnalyzer.

(** [mlio::try_parse_float] (mlio/util/number.h) is not part of these
    sources: [Some v] stands for [parse_result::ok] with [v] stored in the
    out-parameter, [None] for every other parse result. *)
Variable try_parse_float : string -> option float.

(** The members of [column_analyzer] set by its constructor. *)
Variable null_like_values : gset string.
Variable capture_columns : gset N.
Variable max_capture_count : N.

(** The body of the loop [for (std::string as_string : cells)]. *)
Definition analyze_cell (should_capture : bool)
    (feature_statistics : column_analysis) (as_string : string) : column_analysis :=
  let fs := feature_statistics in
  let rows_seen1 := long_add (rows_seen fs) 1 in
  let example_value1 := as_string in
  let numeric_min1 := (numeric_min fs + 1)%float in
  let string_null_like_count1 := long_add (string_null_like_count fs) 1 in
  let captured := string_captured_unique_values fs in
  let overflowed := string_captured_unique_values_overflowed fs in
  let '(captured1, overflowed1) :=
    if should_capture then
      if (N.of_nat (size captured) <? max_capture_count)%N then
        ({[ as_string ]} ∪ captured, overflowed)
      else if bool_decide (as_string ∉ captured) then
        (captured, true)
      else (captured, overflowed)
    else (captured, overflowed) in
  (* Numeric analyzers *)
  let '(numeric_nan_count1, numeric_count1, numeric_min2, numeric_max1) :=
    match try_parse_float as_string with
    | None =>
        (long_add (numeric_nan_count fs) 1, numeric_count fs,
         numeric_min1, numeric_max fs)
    | Some as_float =>
        (numeric_nan_count fs, long_add (numeric_count fs) 1,
         (if is_nan numeric_min1 || (as_float <? numeric_min1)%float
          then as_float else numeric_min1),
         (if is_nan (numeric_max fs) || (numeric_max fs <? as_float)%float
          then as_float else numeric_max fs))
    end in
  (* String analyzers. *)
  let string_empty_count1 :=
    if (String.length as_string =? 0)%nat
    then long_add (string_empty_count fs) 1 else string_empty_count fs in
  let string_only_whitespace_count1 :=
    if StringUtil.only_whitespace as_string
    then long_add (string_only_whitespace_count fs) 1
    else string_only_whitespace_count fs in
  let lowercase_string := transform_tolower as_string in
  let string_null_like_count2 :=
    if StringUtil.matches lowercase_string null_like_values
    then long_add string_null_like_count1 1 else string_null_like_count1 in
  {| column_name := column_name fs;
     rows_seen := rows_seen1;
     numeric_mean := numeric_mean fs;
     numeric_count := numeric_count1;
     numeric_nan_count := numeric_nan_count1;
     numeric_min := numeric_min2;
     numeric_max := numeric_max1;
     string_empty_count := string_empty_count1;
     string_only_whitespace_count := string_only_whitespace_count1;
     string_null_like_count := string_null_like_count2;
     string_captured_unique_values := captured1;
     string_captured_unique_values_overflowed := overflowed1;
     null_empty_count := null_empty_count fs;
     null_like_count := null_like_count fs;
     null_whitespace_only_count := null_whitespace_only_count fs;
     example_value := example_value1 |}.

(** The inner loop over the cells of one column, and the accumulator
    after each of its iterations. *)
Definition analyze_cells (should_capture : bool)
    (fs : column_analysis) (cells : list string) : column_analysis :=
  foldl (analyze_cell should_capture) fs cells.

Fixpoint cell_trace (should_capture : bool)
    (fs : column_analysis) (cells : list string) : list column_analysis :=
  match cells with
  | [] => []
  | as_string :: rest =>
      let fs' := analyze_cell should_capture fs as_string in
      fs' :: cell_trace should_capture fs' rest
  end.

(** [operator()(blocked_range)] on the range that starts at [feature_idx]
    and ends at [columns->size()]; [columns] is the part of the vector from
    [feature_idx] on.  The columns are visited in index order (tbb may
    split the range and run the parts in any order; no column is shared
    between parts).  An exception leaves the vector as it is at the throw:
    the result pairs it with the vector. *)
Fixpoint analyze_range (exm : example) (feature_idx : nat)
    (columns : list column_analysis) : option exn * list column_analysis :=
  match columns with
  | [] => (None, [])
  | feature_statistics :: rest =>
      match features exm !! feature_idx with
      | None => (Some out_of_range, columns)
      | Some t =>
          match as_strings t with
          | inl e => (Some e, columns)
          | inr cells =>
              let should_capture :=
                bool_decide (N.of_nat feature_idx ∈ capture_columns) in
              let fs' := analyze_cells should_capture feature_statistics cells in
              let '(e, rest') := analyze_range exm (S feature_idx) rest in
              (e, fs' :: rest')
          end
      end
  end.

(** What [analyze_dataset] comes to: the [data_analysis] it returns, or an
    exception that leaves the function, with the local [columns] as they
    are when it is thrown. *)
Inductive outcome :=
  | Returned (columns : list column_analysis)
  | Thrown (e : exn) (columns : list column_analysis).

Definition is_string (t : tensor) : bool :=
  match dtype t with dt_string => true | _ => false end.

(** The block [if (columns.empty()) { ... }]. *)
Definition allocate (exm : example) (columns : list column_analysis)
    : option exn * list column_analysis :=
  match columns with
  | [] =>
      let columns1 :=
        map (fun desc => new_column_analysis (name desc)) (descriptors exm) in
      if forallb is_string (features exm) then (None, columns1)
      else (Some (runtime_error "Data insights only works with string tensors."),
            columns1)
  | _ :: _ => (None, columns)
  end.

(** The loop [while (! end_of_dataset)]: the reader is the sequence of
    examples that [read_example()] yields before it yields [nullptr].  A
    reader that throws is not modelled. *)
Fixpoint analyze_loop (columns : list column_analysis) (reader : list example)
    : outcome :=
  match reader with
  | [] => Returned columns
  | exm :: rest =>
      match allocate exm columns with
      | (Some e, columns1) => Thrown e columns1
      | (None, columns1) =>
          match analyze_range exm 0 columns1 with
          | (Some e, columns2) => Thrown e columns2
          | (None, columns2) => analyze_loop columns2 rest
          end
      end
  end.

Definition analyze_dataset (reader : list example) : outcome :=
  analyze_loop [] reader.

End ColumnAnalyzer.

Definition outcome_columns (o : outcome) : list column_analysis :=
  match o with
  | Returned columns => columns
  | Thrown _ columns => columns
  end.

(** ** [register_insights]: the dictionary export *)

Definition double_statistic_names : list (string * (column_analysis -> float)) :=
  [ ("numeric_mean", numeric_mean);
    ("numeric_min", numeric_min);
    ("numeric_max", numeric_max) ].

Definition long_statistic_names : list (string * (column_analysis -> Z)) :=
  [ ("rows_seen", rows_seen);
    ("numeric_count", numeric_count);
    ("numeric_nan_count", numeric_nan_count);
    ("string_empty_count", string_empty_count);
    ("string_only_whitespace_count", string_only_whitespace_count);
    ("string_null_like_count", string_null_like_count);
    ("null_empty_count", null_empty_count);
    ("null_like_count", null_like_count);
    ("null_whitespace_only_count", null_whitespace_only_count) ].

Definition string_statistic_names : list (string * (column_analysis -> string)) :=
  [ ("example_value", example_value) ].

(** [std::to_string(long)] *)
Definition to_string_long (value : Z) : string :=
  NilZero.string_of_int (Z.to_int value).

Section ToDict.

(** [std::to_string(double)], from the C++ standard library. *)
Variable to_string_double : float -> string.

(** The lambda bound to [to_dict]: [result[name] = ...] for each table. *)
Definition to_dict (ca : column_analysis) : gmap string string :=
  let result : gmap string string := ∅ in
  let result :=
    foldl (fun (result : gmap string string) '(name, method) =>
             <[ name := to_string_long (method ca) ]> result)
          result long_statistic_names in
  let result :=
    foldl (fun (result : gmap string string) '(name, method) =>
             <[ name := to_string_double (method ca) ]> result)
          result double_statistic_names in
  foldl (fun (result : gmap string string) '(name, method) =>
           <[ name := method ca ]> result)
        result string_statistic_names.

End ToDict.

(** ** A parser for the worked examples *)

(** Modelled from the spec: [mlio::try_parse_float] is not part of these
    sources.  The glossary's strict numeric grammar accepts a cell only as a
    whole; this stand-in accepts the non-empty cells made of decimal digits
    only, with their value, and rejects every other cell (so "1" and "2"
    parse, "", "  " and "abc" do not, as in Scenario A).  It is used only to
    run the code on concrete cells. *)
Fixpoint digits_value (acc : Z) (s : string) : option Z :=
  match s with
  | EmptyString => Some acc
  | String ch rest =>
      let n := Z.of_nat (nat_of_ascii ch) in
      if (48 <=? n) && (n <=? 57) then digits_value (10 * acc + (n - 48)) rest
      else None
  end.

Definition parse_decimal (s : string) : option float :=
  match s with
  | EmptyString => None
  | _ => option_map (fun z => PrimFloat.of_uint63 (Uint63.of_Z z)) (digits_value 0 s)
  end.

(** ** The spec's reading of the numeric statistics

    These follow the words of the spec, not the code: the incremental mean
    [mean += (value - mean) / numeric_count] and the running minimum of the
    values parsed so far. *)

Definition spec_mean_step (st : float * Z) (value : float) : float * Z :=
  let '(mean, numeric_count) := st in
  let numeric_count' := numeric_count + 1 in
  ((mean + (value - mean) / PrimFloat.of_uint63 (Uint63.of_Z numeric_count'))%float,
   numeric_count').

Definition spec_numeric_mean (parsed : list float) : float :=
  fst (foldl spec_mean_step (0%float, 0) parsed).

Definition spec_numeric_min (parsed : list float) : option float :=
  match parsed with
  | [] => None
  | v :: rest => Some (foldl (fun m x => if (x <? m)%float then x else m) v rest)
  end.

(** ** Predicates of the statements *)

(** [numeric_count + numeric_nan_count == rows_seen], in [long] arithmetic. *)
Definition counts_add_up (fs : column_analysis) : Prop :=
  long_add (numeric_count fs) (numeric_nan_count fs) = rows_seen fs.

(** The three [null_*] fields are 0. *)
Definition null_fields_zero (fs : column_analysis) : Prop :=
  null_empty_count fs = 0 /\ null_like_count fs = 0 /\
  null_whitespace_only_count fs = 0.

(** [captured_unique_values.size() <= max_capture_count], and the overflow
    flag of a later state [fs'] is true when that of [fs] is. *)
Definition capture_bounded (max_capture_count : N) (fs : column_analysis) : Prop :=
  (N.of_nat (size (string_captured_unique_values fs)) <= max_capture_count)%N.

Definition overflow_kept (fs fs' : column_analysis) : Prop :=
  string_captured_unique_values_overflowed fs = true ->
  string_captured_unique_values_overflowed fs' = true.

(** The exception of the type check in [analyze_dataset]. *)
Definition unsupported_type_error : exn :=
  runtime_error "Data insights only works with string tensors.".

(** The first [n] columns of a batch exist and are string tensors. *)
Definition string_columns (n : nat) (exm : example) : Prop :=
  (n <= length (features exm))%nat /\
  Forall (fun t => dtype t = dt_string) (take n (features exm)).

(** The batch without its columns from index [n] on. *)
Definition keep_columns (n : nat) (exm : example) : example :=
  {| descriptors := descriptors exm; features := take n (features exm) |}.

(** The accumulator is the fold, from the constructor's state, of some
    cells by the update rule of the column at index [i]. *)
Definition reachable (try_parse_float : string -> option float)
    (null_like_values : gset string) (capture_columns : gset N)
    (max_capture_count : N) (i : nat) (fs : column_analysis) : Prop :=
  exists name cells,
    fs = analyze_cells try_parse_float null_like_values max_capture_count
           (bool_decide (N.of_nat i ∈ capture_columns))
           (new_column_analysis name) cells.

(** The same of every accumulator of [columns], the part of the vector that
    starts at [feature_idx]. *)
Definition columns_reachable (try_parse_float : string -> option float)
    (null_like_values : gset string) (capture_columns : gset N)
    (max_capture_count : N) (feature_idx : nat)
    (columns : list column_analysis) : Prop :=
  forall k fs, columns !! k = Some fs ->
    reachable try_parse_float null_like_values capture_columns max_capture_count
      (feature_idx + k)%nat fs.

(** ** Predicates of the further properties *)

(** The state of a capture column against the set [D] of the cells folded
    so far: while [D] fits the bound the column holds [D] and has not
    overflowed; beyond it the column holds [max_capture_count] values of [D]
    and has overflowed. *)
Definition capture_tracks (max_capture_count : N)
    (fs : column_analysis) (D : gset string) : Prop :=
  let captured := string_captured_unique_values fs in
  let overflowed := string_captured_unique_values_overflowed fs in
  ((N.of_nat (size D) <= max_capture_count)%N -> captured = D /\ overflowed = false) /\
  ((max_capture_count < N.of_nat (size D))%N ->
     captured ⊆ D /\ N.of_nat (size captured) = max_capture_count /\ overflowed = true).

(** The cells that a batch brings to the column at index [i], and the
    cells that the batches of a reader bring to it, in arrival order. *)
Definition column_cells (i : nat) (exm : example) : list string :=
  match features exm !! i with
  | Some t => cells_of t
  | None => []
  end.

Definition column_stream (i : nat) (reader : list example) : list string :=
  concat (map (column_cells i) reader).

(** One accumulator per descriptor, each the fold of its column's cells
    over the whole reader. *)
Definition folded_columns (try_parse_float : string -> option float)
    (null_like_values : gset string) (capture_columns : gset N)
    (max_capture_count : N) (descs : list feature_desc)
    (reader : list example) : list column_analysis :=
  imap (fun i desc =>
          analyze_cells try_parse_float null_like_values max_capture_count
            (bool_decide (N.of_nat i ∈ capture_columns))
            (new_column_analysis (name desc)) (column_stream i reader))
       descs.

(** [m] against the values parsed so far: absent with nothing but NaN
    parsed, or one of the parsed values that none of them exceeds. *)
Definition running_max (m : float) (seen : list float) : Prop :=
  (is_nan m = true /\ Forall (fun v => is_nan v = true) seen) \/
  (is_nan m = false /\ m ∈ seen /\ Forall (fun v => (m <? v)%float = false) seen).

(** * Properties *)

(** ** Wrap-around arithmetic on [long] *)

Lemma long_wrap_range z : - 2 ^ 63 <= long_wrap z < 2 ^ 63.
Proof.
  unfold long_wrap.
  pose proof (Z.mod_pos_bound (z + 2 ^ 63) (2 ^ 64) ltac:(lia)). lia.
Qed.

Lemma long_wrap_small z : - 2 ^ 63 <= z < 2 ^ 63 -> long_wrap z = z.
Proof.
  intros Hz. unfold long_wrap. rewrite Z.mod_small; lia.
Qed.

Lemma long_wrap_add_l a b : long_wrap (long_wrap a + b) = long_wrap (a + b).
Proof.
  unfold long_wrap.
  replace ((a + 2 ^ 63) `mod` 2 ^ 64 - 2 ^ 63 + b + 2 ^ 63)
    with ((a + 2 ^ 63) `mod` 2 ^ 64 + b) by lia.
  rewrite Zplus_mod_idemp_l. do 2 f_equal. lia.
Qed.

Lemma long_wrap_add_r a b : long_wrap (a + long_wrap b) = long_wrap (a + b).
Proof. rewrite (Z.add_comm a), long_wrap_add_l. f_equal. lia. Qed.

(** An increment always changes a counter. *)
Lemma long_add_1_neq x : long_add x 1 <> x.
Proof.
  unfold long_add. intros H.
  assert (Hx : - 2 ^ 63 <= x < 2 ^ 63) by (rewrite <- H; apply long_wrap_range).
  unfold long_wrap in H.
  destruct (Z.eq_dec x (2 ^ 63 - 1)) as [-> | Hne].
  - vm_compute in H. discriminate.
  - rewrite Z.mod_small in H; lia.
Qed.

Section CellFacts.

Context (try_parse_float : string -> option float)
        (null_like_values : gset string)
        (max_capture_count : N).

Local Abbreviation cell := (analyze_cell try_parse_float null_like_values max_capture_count).
Local Abbreviation cells := (analyze_cells try_parse_float null_like_values max_capture_count).
Local Abbreviation trace := (cell_trace try_parse_float null_like_values max_capture_count).

Local Ltac step_cases sc fs c :=
  unfold analyze_cell;
  destruct sc;
  try destruct (N.of_nat (size (string_captured_unique_values fs)) <? max_capture_count)%N eqn:?;
  try destruct (bool_decide (c ∉ string_captured_unique_values fs)) eqn:?;
  destruct (try_parse_float c) eqn:?;
  cbn [rows_seen numeric_mean numeric_count numeric_nan_count numeric_min numeric_max
       string_empty_count string_only_whitespace_count string_null_like_count
       string_captured_unique_values string_captured_unique_values_overflowed
       null_empty_count null_like_count null_whitespace_only_count
       example_value column_name].

Lemma cell_rows_seen sc fs c :
  rows_seen (cell sc fs c) = long_add (rows_seen fs) 1.
Proof. step_cases sc fs c; reflexivity. Qed.

Lemma cell_parsed sc fs c v :
  try_parse_float c = Some v ->
  numeric_count (cell sc fs c) = long_add (numeric_count fs) 1 /\
  numeric_nan_count (cell sc fs c) = numeric_nan_count fs.
Proof. intros Hv. step_cases sc fs c; simplify_eq; auto. Qed.

Lemma cell_not_parsed sc fs c :
  try_parse_float c = None ->
  numeric_nan_count (cell sc fs c) = long_add (numeric_nan_count fs) 1 /\
  numeric_count (cell sc fs c) = numeric_count fs.
Proof. intros Hv. step_cases sc fs c; simplify_eq; auto. Qed.

Lemma cell_numeric_mean sc fs c : numeric_mean (cell sc fs c) = numeric_mean fs.
Proof. step_cases sc fs c; reflexivity. Qed.

Lemma cell_numeric_min sc fs c :
  numeric_min (cell sc fs c) =
    let numeric_min1 := (numeric_min fs + 1)%float in
    match try_parse_float c with
    | None => numeric_min1
    | Some as_float =>
        if is_nan numeric_min1 || (as_float <? numeric_min1)%float
        then as_float else numeric_min1
    end.
Proof. step_cases sc fs c; reflexivity. Qed.

Lemma cell_numeric_max sc fs c :
  numeric_max (cell sc fs c) =
    match try_parse_float c with
    | None => numeric_max fs
    | Some as_float =>
        if is_nan (numeric_max fs) || (numeric_max fs <? as_float)%float
        then as_float else numeric_max fs
    end.
Proof. step_cases sc fs c; reflexivity. Qed.

Lemma cell_null_fields sc fs c :
  null_empty_count (cell sc fs c) = null_empty_count fs /\
  null_like_count (cell sc fs c) = null_like_count fs /\
  null_whitespace_only_count (cell sc fs c) = null_whitespace_only_count fs.
Proof. step_cases sc fs c; auto. Qed.

Lemma cell_string_empty_count sc fs c :
  string_empty_count (cell sc fs c) =
    if (String.length c =? 0)%nat then long_add (string_empty_count fs) 1
    else string_empty_count fs.
Proof. step_cases sc fs c; reflexivity. Qed.

Lemma cell_string_only_whitespace_count sc fs c :
  string_only_whitespace_count (cell sc fs c) =
    if StringUtil.only_whitespace c
    then long_add (string_only_whitespace_count fs) 1
    else string_only_whitespace_count fs.
Proof. step_cases sc fs c; reflexivity. Qed.

Lemma cell_string_null_like_count sc fs c :
  string_null_like_count (cell sc fs c) =
    if StringUtil.matches (transform_tolower c) null_like_values
    then long_add (long_add (string_null_like_count fs) 1) 1
    else long_add (string_null_like_count fs) 1.
Proof. step_cases sc fs c; reflexivity. Qed.

Lemma cell_captured sc fs c :
  string_captured_unique_values (cell sc fs c) =
    if sc && (N.of_nat (size (string_captured_unique_values fs)) <? max_capture_count)%N
    then {[ c ]} ∪ string_captured_unique_values fs
    else string_captured_unique_values fs.
Proof. step_cases sc fs c; reflexivity. Qed.

Lemma cell_overflowed sc fs c :
  string_captured_unique_values_overflowed (cell sc fs c) =
    string_captured_unique_values_overflowed fs
    || (sc && negb (N.of_nat (size (string_captured_unique_values fs)) <? max_capture_count)%N
           && bool_decide (c ∉ string_captured_unique_values fs)).
Proof.
  step_cases sc fs c;
    destruct (string_captured_unique_values_overflowed fs); reflexivity.
Qed.

(** *** Invariants of the fold *)

Lemma cells_app sc fs l1 l2 : cells sc fs (l1 ++ l2) = cells sc (cells sc fs l1) l2.
Proof. apply foldl_app. Qed.

Lemma trace_invariant (P : column_analysis -> Prop) sc :
  (forall fs c, P fs -> P (cell sc fs c)) ->
  forall l fs, P fs -> Forall P (trace sc fs l).
Proof.
  intros Hstep l. induction l as [| c l IH]; intros fs Hfs; cbn.
  - constructor.
  - constructor; [ | apply IH ]; apply Hstep, Hfs.
Qed.

Lemma cells_invariant (P : column_analysis -> Prop) sc :
  (forall fs c, P fs -> P (cell sc fs c)) ->
  forall l fs, P fs -> P (cells sc fs l).
Proof.
  intros Hstep l. unfold analyze_cells.
  induction l as [| c l IH]; intros fs Hfs; cbn; [ assumption | ].
  apply IH, Hstep, Hfs.
Qed.

(** The last state of the trace is the result of the fold. *)
Lemma trace_last sc l fs : last (fs :: trace sc fs l) = Some (cells sc fs l).
Proof.
  revert fs. induction l as [| c l IH]; intros fs; [ reflexivity | ].
  cbn [cell_trace]. rewrite last_cons_cons. apply IH.
Qed.

End CellFacts.

(** ** The code on the spec's scenarios *)

(** Scenario A, as the code computes it. *)
Example scenario_A_as_coded :
  let fs := analyze_cells parse_decimal ∅ 5000 false (new_column_analysis "x")
              ["1"; "2"; ""; "  "; "abc"]%string in
  (rows_seen fs, numeric_count fs, numeric_nan_count fs) = (5, 2, 3) /\
  (numeric_min fs, numeric_max fs, numeric_mean fs) = (5, 2, 0)%float /\
  (string_empty_count fs, string_only_whitespace_count fs,
   string_null_like_count fs) = (1, 2, 5) /\
  example_value fs = "abc"%string.
Proof. cbn zeta. repeat split; vm_compute; reflexivity. Qed.

(** Scenario B: "N/A" with the null-like values "n/a" and "null". *)
Example scenario_B_as_coded :
  string_null_like_count
    (analyze_cell parse_decimal {[ "n/a"%string; "null"%string ]} 5000 false
       (new_column_analysis "x") "N/A") = 2.
Proof. rewrite cell_string_null_like_count. vm_compute. reflexivity. Qed.

(** Scenario D: a reader that yields no batch. *)
Example scenario_D parse nlv cc max : analyze_dataset parse nlv cc max [] = Returned [].
Proof. reflexivity. Qed.

Section DriverFacts.

Context (try_parse_float : string -> option float)
        (null_like_values : gset string)
        (capture_columns : gset N)
        (max_capture_count : N).

Local Abbreviation cell := (analyze_cell try_parse_float null_like_values max_capture_count).
Local Abbreviation range :=
  (analyze_range try_parse_float null_like_values capture_columns max_capture_count).
Local Abbreviation loop :=
  (analyze_loop try_parse_float null_like_values capture_columns max_capture_count).

Variable P : column_analysis -> Prop.
Hypothesis P_new : forall name, P (new_column_analysis name).
Hypothesis P_cell : forall sc fs c, P fs -> P (cell sc fs c).

Lemma range_invariant exm columns :
  forall feature_idx, Forall P columns -> Forall P (range exm feature_idx columns).2.
Proof.
  induction columns as [| fs rest IH]; intros idx Hcols; cbn.
  - constructor.
  - destruct (features exm !! idx) as [t |]; [ | exact Hcols ].
    destruct (as_strings t) as [e | l]; [ exact Hcols | ].
    inversion Hcols as [| ? ? Hfs Hrest]; subst.
    specialize (IH (S idx) Hrest).
    destruct (range exm (S idx) rest) as [e rest']; cbn in *.
    constructor; [ | exact IH ].
    apply cells_invariant; auto.
Qed.

Lemma allocate_invariant exm columns :
  Forall P columns -> Forall P (allocate exm columns).2.
Proof.
  intros Hcols. destruct columns as [| fs rest]; cbn; [ | exact Hcols ].
  assert (Forall P (map (fun desc => new_column_analysis (name desc)) (descriptors exm)))
    by (apply Forall_map, Forall_forall; intros; apply P_new).
  destruct (forallb is_string (features exm)); assumption.
Qed.

Lemma loop_invariant reader :
  forall columns, Forall P columns -> Forall P (outcome_columns (loop columns reader)).
Proof.
  induction reader as [| exm rest IH]; intros columns Hcols; cbn; [ exact Hcols | ].
  pose proof (allocate_invariant exm columns Hcols) as H1.
  destruct (allocate exm columns) as [[e |] columns1]; cbn in H1; [ exact H1 | ].
  pose proof (range_invariant exm columns1 0 H1) as H2.
  destruct (range exm 0 columns1) as [[e |] columns2]; cbn in H2; [ exact H2 | ].
  apply IH, H2.
Qed.

Lemma dataset_invariant reader :
  Forall P (outcome_columns
    (analyze_dataset try_parse_float null_like_values capture_columns
                     max_capture_count reader)).
Proof. apply loop_invariant. constructor. Qed.

End DriverFacts.

Section DriverRelation.

Context (try_parse_float : string -> option float)
        (null_like_values : gset string)
        (capture_columns : gset N)
        (max_capture_count : N).

Local Abbreviation cell := (analyze_cell try_parse_float null_like_values max_capture_count).
Local Abbreviation cells := (analyze_cells try_parse_float null_like_values max_capture_count).
Local Abbreviation range :=
  (analyze_range try_parse_float null_like_values capture_columns max_capture_count).
Local Abbreviation loop :=
  (analyze_loop try_parse_float null_like_values capture_columns max_capture_count).

(** A relation between an accumulator and its later states. *)
Variable R : column_analysis -> column_analysis -> Prop.
Hypothesis R_refl : forall fs, R fs fs.
Hypothesis R_trans : forall fs1 fs2 fs3, R fs1 fs2 -> R fs2 fs3 -> R fs1 fs3.
Hypothesis R_cell : forall sc fs c, R fs (cell sc fs c).

Lemma cells_later sc l : forall fs, R fs (cells sc fs l).
Proof.
  unfold analyze_cells. induction l as [| c l IH]; intros fs; cbn; [ apply R_refl | ].
  eapply R_trans; [ apply (R_cell sc fs c) | apply IH ].
Qed.

Lemma Forall2_later_refl columns : Forall2 R columns columns.
Proof. induction columns; constructor; auto. Qed.

Lemma range_later exm columns :
  forall feature_idx, Forall2 R columns (range exm feature_idx columns).2.
Proof.
  induction columns as [| fs rest IH]; intros idx; cbn.
  - constructor.
  - destruct (features exm !! idx) as [t |]; [ | apply Forall2_later_refl ].
    destruct (as_strings t) as [e | l]; [ apply Forall2_later_refl | ].
    specialize (IH (S idx)).
    destruct (range exm (S idx) rest) as [e rest']; cbn in *.
    constructor; [ apply cells_later | exact IH ].
Qed.

Lemma loop_later reader :
  forall columns, columns <> [] ->
    Forall2 R columns (outcome_columns (loop columns reader)).
Proof.
  induction reader as [| exm rest IH]; intros columns Hne; cbn.
  - apply Forall2_later_refl.
  - destruct columns as [| fs0 columns0]; [ congruence | ].
    cbn [allocate].
    pose proof (range_later exm (fs0 :: columns0) 0) as H2.
    destruct (range exm 0 (fs0 :: columns0)) as [[e |] columns2]; cbn in H2;
      [ exact H2 | ].
    assert (Hne2 : columns2 <> []) by (inversion H2; congruence).
    specialize (IH columns2 Hne2).
    clear - R_trans H2 IH.
    revert IH. generalize (outcome_columns (loop columns2 rest)). revert H2.
    generalize (fs0 :: columns0). intros l1 H12.
    induction H12 as [| a b l1 l2 Hab H12 IH12]; intros l3 H23;
      inversion H23; subst; constructor; eauto.
Qed.

(** The loop over a reader that goes on after [r1]. *)
Lemma loop_app r1 r2 : forall columns,
  loop columns (r1 ++ r2) =
    match loop columns r1 with
    | Returned columns1 => loop columns1 r2
    | Thrown e columns1 => Thrown e columns1
    end.
Proof.
  induction r1 as [| exm r1 IH]; intros columns; cbn; [ reflexivity | ].
  destruct (allocate exm columns) as [[e |] columns1]; [ reflexivity | ].
  destruct (range exm 0 columns1) as [[e |] columns2]; [ reflexivity | ].
  apply IH.
Qed.

(** Every accumulator of the vector returned for [r1] is related to the
    accumulator at the same index when the run goes on with [r2]. *)
Lemma dataset_later r1 r2 columns1 :
  analyze_dataset try_parse_float null_like_values capture_columns
    max_capture_count r1 = Returned columns1 ->
  forall i fs, columns1 !! i = Some fs ->
    exists fs',
      outcome_columns
        (analyze_dataset try_parse_float null_like_values capture_columns
           max_capture_count (r1 ++ r2)) !! i = Some fs' /\ R fs fs'.
Proof.
  unfold analyze_dataset. intros Hr1 i fs Hi.
  rewrite loop_app, Hr1.
  assert (Hne : columns1 <> []) by (intros ->; discriminate).
  pose proof (loop_later r2 columns1 Hne) as H2.
  destruct (Forall2_lookup_l _ _ _ _ _ H2 Hi) as (fs' & Hfs' & HR). eauto.
Qed.

End DriverRelation.


Section DriverReachable.

Context (try_parse_float : string -> option float)
        (null_like_values : gset string)
        (capture_columns : gset N)
        (max_capture_count : N).

Local Abbreviation cells := (analyze_cells try_parse_float null_like_values max_capture_count).
Local Abbreviation range :=
  (analyze_range try_parse_float null_like_values capture_columns max_capture_count).
Local Abbreviation loop :=
  (analyze_loop try_parse_float null_like_values capture_columns max_capture_count).
Local Abbreviation reach :=
  (reachable try_parse_float null_like_values capture_columns max_capture_count).

Local Abbreviation all_reachable :=
  (columns_reachable try_parse_float null_like_values capture_columns max_capture_count).

Lemma range_reachable exm columns : forall feature_idx,
  all_reachable feature_idx columns ->
  all_reachable feature_idx (range exm feature_idx columns).2.
Proof.
  induction columns as [| fs0 rest IH]; intros idx Hcols; cbn; [ exact Hcols | ].
  destruct (features exm !! idx) as [t |]; [ | exact Hcols ].
  destruct (as_strings t) as [e | l]; [ exact Hcols | ].
  assert (Hrest : all_reachable (S idx) rest).
  { intros k fs Hk. replace (S idx + k)%nat with (idx + S k)%nat by lia.
    apply Hcols. exact Hk. }
  specialize (IH (S idx) Hrest).
  destruct (range exm (S idx) rest) as [e rest']; cbn in *.
  intros [| k] fs Hk; cbn in Hk.
  - injection Hk as <-.
    destruct (Hcols 0%nat fs0 eq_refl) as (nm & l0 & ->).
    rewrite Nat.add_0_r. exists nm, (l0 ++ l).
    now rewrite cells_app.
  - replace (idx + S k)%nat with (S idx + k)%nat by lia. now apply IH.
Qed.

Lemma allocate_reachable exm columns :
  all_reachable 0 columns -> all_reachable 0 (allocate exm columns).2.
Proof.
  intros Hcols. destruct columns as [| fs0 rest]; cbn; [ | exact Hcols ].
  assert (Hnew : all_reachable 0
            (map (fun desc => new_column_analysis (name desc)) (descriptors exm))).
  { intros k fs Hk. rewrite list_lookup_fmap in Hk.
    destruct (descriptors exm !! k) as [desc |]; [ | discriminate ].
    injection Hk as <-. exists (name desc), []. reflexivity. }
  destruct (forallb is_string (features exm)); exact Hnew.
Qed.

Lemma loop_reachable reader : forall columns,
  all_reachable 0 columns -> all_reachable 0 (outcome_columns (loop columns reader)).
Proof.
  induction reader as [| exm rest IH]; intros columns Hcols; cbn; [ exact Hcols | ].
  pose proof (allocate_reachable exm columns Hcols) as H1.
  destruct (allocate exm columns) as [[e |] columns1]; cbn in H1; [ exact H1 | ].
  pose proof (range_reachable exm columns1 0 H1) as H2.
  destruct (range exm 0 columns1) as [[e |] columns2]; cbn in H2; [ exact H2 | ].
  apply IH, H2.
Qed.

(** Every accumulator the driver ends with, by a return or by an exception,
    is the fold of some cells from the constructor's state, with the capture
    choice of its index: what holds of all such folds holds of every column
    of every run. *)
Lemma dataset_columns_reachable reader i fs :
  outcome_columns
    (analyze_dataset try_parse_float null_like_values capture_columns
       max_capture_count reader) !! i = Some fs ->
  reach i fs.
Proof.
  intros Hi.
  apply (loop_reachable reader [] ltac:(intros k ? Hk; discriminate) i fs Hi).
Qed.

End DriverReachable.

(** ** The counters of the numeric branch *)

Lemma counts_add_up_cell parse nlv max sc fs c :
  counts_add_up fs -> counts_add_up (analyze_cell parse nlv max sc fs c).
Proof.
  unfold counts_add_up, long_add. intros Hfs.
  rewrite cell_rows_seen. unfold long_add. rewrite <- Hfs.
  destruct (parse c) as [v |] eqn:Hv.
  - destruct (cell_parsed parse nlv max sc fs c v Hv) as [-> ->].
    unfold long_add. rewrite !long_wrap_add_l. f_equal. lia.
  - destruct (cell_not_parsed parse nlv max sc fs c Hv) as [-> ->].
    unfold long_add. rewrite long_wrap_add_l, long_wrap_add_r. f_equal. lia.
Qed.

(** Below [2 ^ 63] cells no counter wraps and the sum is exact. *)
Lemma counts_exact parse nlv max sc cells : forall fs,
  0 <= numeric_count fs -> 0 <= numeric_nan_count fs ->
  numeric_count fs + numeric_nan_count fs = rows_seen fs ->
  rows_seen fs + Z.of_nat (length cells) < 2 ^ 63 ->
  let fs' := analyze_cells parse nlv max sc fs cells in
  0 <= numeric_count fs' /\ 0 <= numeric_nan_count fs' /\
  numeric_count fs' + numeric_nan_count fs' = rows_seen fs' /\
  rows_seen fs' = rows_seen fs + Z.of_nat (length cells).
Proof.
  unfold analyze_cells.
  induction cells as [| c l IH]; intros fs Hc Hn Hsum Hlen; cbn [foldl length] in *.
  - repeat split; auto; lia.
  - set (fs1 := analyze_cell parse nlv max sc fs c).
    assert (Hr : rows_seen fs1 = rows_seen fs + 1).
    { unfold fs1. rewrite cell_rows_seen. apply long_wrap_small. lia. }
    assert (H1 : 0 <= numeric_count fs1 /\ 0 <= numeric_nan_count fs1 /\
                 numeric_count fs1 + numeric_nan_count fs1 = rows_seen fs1).
    { unfold fs1 in *. destruct (parse c) as [v |] eqn:Hv.
      - destruct (cell_parsed parse nlv max sc fs c v Hv) as [E1 E2].
        rewrite E1, E2. unfold long_add. rewrite long_wrap_small; lia.
      - destruct (cell_not_parsed parse nlv max sc fs c Hv) as [E1 E2].
        rewrite E1, E2. unfold long_add. rewrite long_wrap_small; lia. }
    destruct H1 as (Hc1 & Hn1 & Hsum1).
    destruct (IH fs1 Hc1 Hn1 Hsum1 ltac:(lia)) as (? & ? & ? & Hrows).
    repeat split; auto. rewrite Hrows. lia.
Qed.

(** C1. At every point of the fold of every column, in every run,
    [numeric_count + numeric_nan_count == rows_seen]: a cell adds one to
    [rows_seen] and to exactly one of [numeric_count] (the cell parses as a
    float) and [numeric_nan_count] (it does not).  The equation holds in
    [long] arithmetic after every cell (first part, for the states of one
    column; second part, for the vector the driver ends with); the third
    part is the per-cell rule; and while fewer than [2 ^ 63] cells have been
    folded no counter has wrapped, the sum is exact and [rows_seen] is the
    number of cells. *)
Theorem numeric_counts_partition_rows_seen
    (try_parse_float : string -> option float) (null_like_values : gset string)
    (capture_columns : gset N) (max_capture_count : N) :
  (forall should_capture name cells,
     Forall counts_add_up
       (new_column_analysis name ::
        cell_trace try_parse_float null_like_values max_capture_count
          should_capture (new_column_analysis name) cells)) /\
  (forall reader,
     Forall counts_add_up
       (outcome_columns
          (analyze_dataset try_parse_float null_like_values capture_columns
             max_capture_count reader))) /\
  (forall should_capture fs as_string,
     let fs' := analyze_cell try_parse_float null_like_values max_capture_count
                  should_capture fs as_string in
     rows_seen fs' = long_add (rows_seen fs) 1 /\
     (numeric_count fs' = long_add (numeric_count fs) 1 /\
      numeric_nan_count fs' = numeric_nan_count fs /\
      is_Some (try_parse_float as_string)
      \/
      numeric_nan_count fs' = long_add (numeric_nan_count fs) 1 /\
      numeric_count fs' = numeric_count fs /\
      try_parse_float as_string = None)) /\
  (forall should_capture name cells,
     Z.of_nat (length cells) < 2 ^ 63 ->
     let fs := analyze_cells try_parse_float null_like_values max_capture_count
                 should_capture (new_column_analysis name) cells in
     numeric_count fs + numeric_nan_count fs = rows_seen fs /\
     rows_seen fs = Z.of_nat (length cells)).
Proof.
  split; [ | split; [ | split ] ].
  - intros sc nm l. constructor; [ reflexivity | ].
    apply trace_invariant; [ | reflexivity ].
    intros; now apply counts_add_up_cell.
  - intros reader. apply dataset_invariant; [ reflexivity | ].
    intros; now apply counts_add_up_cell.
  - intros sc fs c. cbn zeta. split; [ apply cell_rows_seen | ].
    destruct (try_parse_float c) as [v |] eqn:Hv.
    + left. destruct (cell_parsed _ null_like_values max_capture_count
                        sc fs c v Hv) as [E1 E2].
      repeat split; eauto.
    + right. destruct (cell_not_parsed _ null_like_values max_capture_count
                         sc fs c Hv) as [E1 E2].
      repeat split; eauto.
  - intros sc nm l Hl.
    pose proof (counts_exact try_parse_float null_like_values max_capture_count
                  sc l (new_column_analysis nm)) as H0.
    cbn in H0. destruct H0 as (_ & _ & Hsum & Hrows); try lia.
    cbn zeta. rewrite Hsum, Hrows. split; [ reflexivity | lia ].
Qed.

(** The five cells of Scenario A: the counters add up to 5. *)
Lemma numeric_counts_partition_rows_seen_witness :
  let fs := analyze_cells parse_decimal ∅ 5000 false (new_column_analysis "x")
              ["1"; "2"; ""; "  "; "abc"] in
  numeric_count fs + numeric_nan_count fs = rows_seen fs /\ rows_seen fs = 5.
Proof.
  apply (numeric_counts_partition_rows_seen parse_decimal ∅ ∅ 5000).
  cbn. lia.
Defined.

(** ** The three [null_*] fields *)

Lemma null_fields_zero_cell parse nlv max sc fs c :
  null_fields_zero fs -> null_fields_zero (analyze_cell parse nlv max sc fs c).
Proof.
  unfold null_fields_zero.
  destruct (cell_null_fields parse nlv max sc fs c) as (-> & -> & ->). auto.
Qed.

Lemma to_dict_null_fields to_string_double ca :
  null_fields_zero ca ->
  to_dict to_string_double ca !! "null_empty_count" = Some "0" /\
  to_dict to_string_double ca !! "null_like_count" = Some "0" /\
  to_dict to_string_double ca !! "null_whitespace_only_count" = Some "0".
Proof.
  intros (H1 & H2 & H3). unfold to_dict. cbn.
  rewrite H1, H2, H3. repeat split; by simplify_map_eq.
Qed.

(** C10. [null_empty_count], [null_like_count] and
    [null_whitespace_only_count] are 0 from the constructor to the end of the
    analysis: no per-cell update writes them (first part), so they are 0 in
    every state of every column's fold and in the vector the driver ends
    with; the export [to_dict] lists the three names and renders each as
    "0". *)
Theorem null_fields_stay_zero
    (try_parse_float : string -> option float) (null_like_values : gset string)
    (capture_columns : gset N) (max_capture_count : N) :
  (forall should_capture fs as_string,
     let fs' := analyze_cell try_parse_float null_like_values max_capture_count
                  should_capture fs as_string in
     null_empty_count fs' = null_empty_count fs /\
     null_like_count fs' = null_like_count fs /\
     null_whitespace_only_count fs' = null_whitespace_only_count fs) /\
  (forall should_capture name cells,
     Forall null_fields_zero
       (new_column_analysis name ::
        cell_trace try_parse_float null_like_values max_capture_count
          should_capture (new_column_analysis name) cells)) /\
  (forall reader,
     Forall null_fields_zero
       (outcome_columns
          (analyze_dataset try_parse_float null_like_values capture_columns
             max_capture_count reader))) /\
  (forall to_string_double reader,
     Forall (fun ca =>
               to_dict to_string_double ca !! "null_empty_count" = Some "0" /\
               to_dict to_string_double ca !! "null_like_count" = Some "0" /\
               to_dict to_string_double ca !! "null_whitespace_only_count" = Some "0")
       (outcome_columns
          (analyze_dataset try_parse_float null_like_values capture_columns
             max_capture_count reader))).
Proof.
  assert (Hrun : forall reader,
     Forall null_fields_zero
       (outcome_columns
          (analyze_dataset try_parse_float null_like_values capture_columns
             max_capture_count reader))).
  { intros reader. apply dataset_invariant; [ by intros | ].
    intros; now apply null_fields_zero_cell. }
  split; [ | split; [ | split ] ].
  - intros sc fs c. apply cell_null_fields.
  - intros sc nm l. constructor; [ by idtac | ].
    apply trace_invariant; [ | by idtac ].
    intros; now apply null_fields_zero_cell.
  - exact Hrun.
  - intros tsd reader. eapply Forall_impl; [ apply Hrun | ].
    intros ca Hca. now apply to_dict_null_fields.
Qed.

(** ** [numeric_mean] *)

(** C4, as the spec has it, fails on the code: after the single cell "1" the
    spec's incremental mean is 1, the field [numeric_mean] is still 0. *)
Lemma numeric_mean_not_running_mean :
  let cells := ["1"%string] in
  let fs := analyze_cells parse_decimal ∅ 5000 false (new_column_analysis "x") cells in
  numeric_count fs = 1 /\
  omap parse_decimal cells = [1%float] /\
  spec_numeric_mean (omap parse_decimal cells) = 1%float /\
  numeric_mean fs = 0%float /\
  numeric_mean fs <> spec_numeric_mean (omap parse_decimal cells).
Proof.
  cbn zeta. repeat split; try (vm_compute; reflexivity).
  intros H. apply (f_equal (fun x => PrimFloat.eqb x 0)) in H.
  vm_compute in H. discriminate.
Qed.

(** C4, amended. No per-cell update writes [numeric_mean]: the field keeps
    the 0.0 the constructor gives it, in every state of every column's fold
    and in the vector the driver ends with, whatever the cells. *)
Theorem numeric_mean_stays_zero
    (try_parse_float : string -> option float) (null_like_values : gset string)
    (capture_columns : gset N) (max_capture_count : N) :
  (forall should_capture fs as_string,
     numeric_mean (analyze_cell try_parse_float null_like_values max_capture_count
                     should_capture fs as_string) = numeric_mean fs) /\
  (forall should_capture name cells,
     Forall (fun fs => numeric_mean fs = 0%float)
       (new_column_analysis name ::
        cell_trace try_parse_float null_like_values max_capture_count
          should_capture (new_column_analysis name) cells)) /\
  (forall reader,
     Forall (fun fs => numeric_mean fs = 0%float)
       (outcome_columns
          (analyze_dataset try_parse_float null_like_values capture_columns
             max_capture_count reader))).
Proof.
  split; [ | split ].
  - intros sc fs c. apply cell_numeric_mean.
  - intros sc nm l. constructor; [ reflexivity | ].
    apply trace_invariant; [ | reflexivity ].
    intros fs c Hfs. now rewrite cell_numeric_mean.
  - intros reader.
    apply (dataset_invariant _ _ _ _ (fun fs => numeric_mean fs = 0%float));
      [ reflexivity | ].
    intros sc fs c Hfs. now rewrite cell_numeric_mean.
Qed.

(** ** String classification *)

Lemma find_if_not_all p l :
  StringUtil.find_if_not p l = length l <-> Forall (fun ch => p ch = true) l.
Proof.
  induction l as [| ch l IH]; cbn.
  - split; [ constructor | reflexivity ].
  - destruct (p ch) eqn:Hp.
    + rewrite Forall_cons, <- IH. split; [ intros [=]; auto | intros [_ ->]; auto ].
    + split; [ discriminate | ]. rewrite Forall_cons. intros [? _]. congruence.
Qed.

(** [only_whitespace] holds of the cells all of whose characters are
    whitespace, the empty cell among them. *)
Lemma only_whitespace_spec s :
  StringUtil.only_whitespace s = true <->
  Forall (fun ch => StringUtil.isspace ch = true) (list_ascii_of_string s).
Proof.
  unfold StringUtil.only_whitespace. cbn zeta.
  rewrite Nat.eqb_eq. apply find_if_not_all.
Qed.

(** C6, as the spec has it, fails on the code: the empty cell adds one to
    [string_empty_count] and to [string_only_whitespace_count] as well. *)
Lemma empty_cell_counts_as_only_whitespace :
  let fs := analyze_cell parse_decimal ∅ 5000 false (new_column_analysis "x") "" in
  String.length "" = 0%nat /\
  string_empty_count fs = 1 /\
  string_only_whitespace_count (new_column_analysis "x") = 0 /\
  string_only_whitespace_count fs = 1.
Proof. cbn zeta. repeat split; vm_compute; reflexivity. Qed.

(** C6, amended. A cell adds one to [string_only_whitespace_count] if and
    only if every character of it is whitespace, which the empty cell
    satisfies, and leaves the counter as it is otherwise; it adds one to
    [string_empty_count] if and only if its length is zero.  So an empty
    cell adds one to both counters. *)
Theorem only_whitespace_count_includes_empty
    (try_parse_float : string -> option float) (null_like_values : gset string)
    (max_capture_count : N) (should_capture : bool)
    (fs : column_analysis) (as_string : string) :
  let fs' := analyze_cell try_parse_float null_like_values max_capture_count
               should_capture fs as_string in
  let all_space :=
    Forall (fun ch => StringUtil.isspace ch = true) (list_ascii_of_string as_string) in
  (string_only_whitespace_count fs' = long_add (string_only_whitespace_count fs) 1
     <-> all_space) /\
  (string_only_whitespace_count fs' = string_only_whitespace_count fs
     <-> ~ all_space) /\
  (string_empty_count fs' = long_add (string_empty_count fs) 1
     <-> String.length as_string = 0%nat) /\
  (string_empty_count fs' = string_empty_count fs
     <-> String.length as_string <> 0%nat) /\
  (as_string = ""%string ->
     string_empty_count fs' = long_add (string_empty_count fs) 1 /\
     string_only_whitespace_count fs' = long_add (string_only_whitespace_count fs) 1).
Proof.
  cbn zeta.
  rewrite cell_string_only_whitespace_count, cell_string_empty_count.
  rewrite <- only_whitespace_spec.
  pose proof (long_add_1_neq (string_only_whitespace_count fs)) as Hw.
  pose proof (long_add_1_neq (string_empty_count fs)) as He.
  repeat split.
  - destruct (StringUtil.only_whitespace as_string); [ reflexivity | ].
    intros H. symmetry in H. contradiction.
  - intros ->. reflexivity.
  - destruct (StringUtil.only_whitespace as_string); [ | discriminate ].
    intros H _. contradiction.
  - destruct (StringUtil.only_whitespace as_string); [ | reflexivity ].
    intros H. now contradict H.
  - destruct (String.length as_string =? 0)%nat eqn:E.
    + intros _. now apply Nat.eqb_eq.
    + intros H. symmetry in H. contradiction.
  - intros ->. reflexivity.
  - destruct (String.length as_string =? 0)%nat eqn:E.
    + intros H. contradiction.
    + intros _. now apply Nat.eqb_neq.
  - intros H. apply Nat.eqb_neq in H. now rewrite H.
  - subst as_string. reflexivity.
  - subst as_string. reflexivity.
Qed.

(** The empty cell on a new accumulator. *)
Lemma only_whitespace_count_includes_empty_witness :
  let fs := new_column_analysis "x" in
  let fs' := analyze_cell parse_decimal ∅ 5000 false fs "" in
  string_empty_count fs' = long_add (string_empty_count fs) 1 /\
  string_only_whitespace_count fs' = long_add (string_only_whitespace_count fs) 1.
Proof.
  apply (only_whitespace_count_includes_empty parse_decimal ∅ 5000 false
           (new_column_analysis "x") "").
  reflexivity.
Defined.

(** C2, on the code.  [string_null_like_count] gets one for every cell
    before the null-like test, and one more when the test succeeds; the test
    looks the case-folded cell up as it is, since [matches] drops the result
    of [trim].  "abc" with an empty null-like set: the cell does not match,
    the counter goes from 0 to 1.  " NULL " with the set {"null"}: the
    case-folded, trimmed cell is in the set, the look-up fails all the same.
    "NULL" with the set {"null"}: the cell matches, the counter goes from 0
    to 2. *)
Theorem null_like_count_on_failing_inputs
    (try_parse_float : string -> option float) (max_capture_count : N)
    (should_capture : bool) :
  let cell nlv := analyze_cell try_parse_float nlv max_capture_count should_capture
                    (new_column_analysis "x") in
  (forall nlv fs as_string,
     string_null_like_count
       (analyze_cell try_parse_float nlv max_capture_count should_capture fs as_string)
     = if bool_decide (transform_tolower as_string ∈ nlv)
       then long_add (long_add (string_null_like_count fs) 1) 1
       else long_add (string_null_like_count fs) 1) /\
  ((StringUtil.trim (transform_tolower "abc") ∉ (∅ : gset string)) /\
   string_null_like_count (cell ∅ "abc") = 1) /\
  ((StringUtil.trim (transform_tolower " NULL ") ∈ ({[ "null"%string ]} : gset string)) /\
   StringUtil.matches (transform_tolower " NULL ") {[ "null"%string ]} = false /\
   string_null_like_count (cell {[ "null"%string ]} " NULL ") = 1) /\
  ((StringUtil.trim (transform_tolower "NULL") ∈ ({[ "null"%string ]} : gset string)) /\
   string_null_like_count (cell {[ "null"%string ]} "NULL") = 2).
Proof.
  cbn zeta. split; [ | split; [ | split ] ].
  - intros nlv fs c. apply cell_string_null_like_count.
  - split; [ set_solver | ]. rewrite cell_string_null_like_count. reflexivity.
  - split; [ | split ].
    + apply elem_of_singleton. reflexivity.
    + reflexivity.
    + rewrite cell_string_null_like_count. reflexivity.
  - split.
    + apply elem_of_singleton. reflexivity.
    + rewrite cell_string_null_like_count. reflexivity.
Qed.

(** ** [numeric_min] and [numeric_max] *)

(** While no cell has parsed, [numeric_min] and [numeric_max] stay absent:
    the [+= 1] on a NaN gives a NaN. *)
Lemma numeric_range_absent_until_parsed parse nlv max sc cells : forall fs,
  Forall (fun c => parse c = None) cells ->
  numeric_min fs = nan -> numeric_max fs = nan ->
  numeric_min (analyze_cells parse nlv max sc fs cells) = nan /\
  numeric_max (analyze_cells parse nlv max sc fs cells) = nan.
Proof.
  unfold analyze_cells.
  induction cells as [| c l IH]; intros fs Hall Hmin Hmax; cbn [foldl]; [ auto | ].
  inversion Hall as [| ? ? Hc Hl]; subst.
  apply IH; [ exact Hl | | ].
  - rewrite cell_numeric_min, Hc, Hmin. reflexivity.
  - rewrite cell_numeric_max, Hc. exact Hmax.
Qed.

(** C3, on the code.  [numeric_min] gets [+= 1] on every cell before the
    numeric branch, so after the first parsed cell it is no longer the
    minimum of the parsed values.  Cells "1", "2" (parsed as 1 and 2): the
    minimum of the parsed values is 1, [numeric_min] ends as 2;
    [numeric_max], which has no such line, is the maximum 2. *)
Theorem numeric_min_on_failing_input
    (try_parse_float : string -> option float) (null_like_values : gset string)
    (max_capture_count : N) (should_capture : bool) :
  try_parse_float "1" = Some 1%float ->
  try_parse_float "2" = Some 2%float ->
  let cells := ["1"; "2"]%string in
  let fs := analyze_cells try_parse_float null_like_values max_capture_count
              should_capture (new_column_analysis "x") cells in
  omap try_parse_float cells = [1; 2]%float /\
  spec_numeric_min (omap try_parse_float cells) = Some 1%float /\
  numeric_min fs = 2%float /\
  numeric_max fs = 2%float.
Proof.
  intros H1 H2. cbn zeta.
  unfold analyze_cells. cbn [foldl omap list_omap].
  rewrite !cell_numeric_min, !cell_numeric_max, H1, H2.
  repeat split; reflexivity.
Qed.

(** The same cells with the parser of the worked examples. *)
Lemma numeric_min_on_failing_input_witness :
  let fs := analyze_cells parse_decimal ∅ 5000 false
              (new_column_analysis "x") ["1"; "2"]%string in
  omap parse_decimal ["1"; "2"]%string = [1; 2]%float /\
  spec_numeric_min (omap parse_decimal ["1"; "2"]%string) = Some 1%float /\
  numeric_min fs = 2%float /\
  numeric_max fs = 2%float.
Proof.
  apply (numeric_min_on_failing_input parse_decimal ∅ 5000 false); reflexivity.
Defined.

(** C9, on the code.  The same [numeric_min += 1] on every cell lifts
    [numeric_min] above [numeric_max]: after the cells "1" (parsed as 1) and
    "abc" (not parsed) both fields are present, [numeric_min] is 2 and
    [numeric_max] is 1. *)
Theorem numeric_min_above_max_on_failing_input
    (try_parse_float : string -> option float) (null_like_values : gset string)
    (max_capture_count : N) (should_capture : bool) :
  try_parse_float "1" = Some 1%float ->
  try_parse_float "abc" = None ->
  let fs := analyze_cells try_parse_float null_like_values max_capture_count
              should_capture (new_column_analysis "x") ["1"; "abc"]%string in
  is_nan (numeric_min fs) = false /\
  is_nan (numeric_max fs) = false /\
  numeric_min fs = 2%float /\
  numeric_max fs = 1%float /\
  (numeric_min fs <=? numeric_max fs)%float = false.
Proof.
  intros H1 H2. cbn zeta.
  unfold analyze_cells. cbn [foldl].
  rewrite !cell_numeric_min, !cell_numeric_max, H1, H2.
  repeat split; reflexivity.
Qed.

(** The same cells with the parser of the worked examples. *)
Lemma numeric_min_above_max_on_failing_input_witness :
  let fs := analyze_cells parse_decimal ∅ 5000 false
              (new_column_analysis "x") ["1"; "abc"]%string in
  is_nan (numeric_min fs) = false /\
  is_nan (numeric_max fs) = false /\
  numeric_min fs = 2%float /\
  numeric_max fs = 1%float /\
  (numeric_min fs <=? numeric_max fs)%float = false.
Proof.
  apply (numeric_min_above_max_on_failing_input parse_decimal ∅ 5000 false);
    reflexivity.
Defined.

(** ** Bounded capture of unique values *)

Lemma size_add_le (c : string) (X : gset string) : (size ({[ c ]} ∪ X) <= S (size X))%nat.
Proof.
  destruct (decide (c ∈ X)) as [Hin | Hout].
  - rewrite (subseteq_union_1_L {[ c ]} X); [ lia | ].
    now apply singleton_subseteq_l.
  - rewrite size_union; [ rewrite size_singleton; lia | ].
    now apply disjoint_singleton_l.
Qed.

Lemma capture_bounded_new max nm : capture_bounded max (new_column_analysis nm).
Proof.
  unfold capture_bounded. cbn [string_captured_unique_values new_column_analysis].
  rewrite size_empty. lia.
Qed.

Lemma capture_bounded_cell parse nlv max sc fs c :
  capture_bounded max fs -> capture_bounded max (analyze_cell parse nlv max sc fs c).
Proof.
  unfold capture_bounded. intros Hfs. rewrite cell_captured.
  destruct sc; cbn [andb]; [ | exact Hfs ].
  destruct (N.ltb_spec (N.of_nat (size (string_captured_unique_values fs))) max);
    [ | exact Hfs ].
  pose proof (size_add_le c (string_captured_unique_values fs)). lia.
Qed.

Lemma overflow_kept_cell parse nlv max sc fs c :
  overflow_kept fs (analyze_cell parse nlv max sc fs c).
Proof.
  unfold overflow_kept. intros Hfs. rewrite cell_overflowed, Hfs. reflexivity.
Qed.

(** A column that is not captured keeps an empty set. *)
Lemma not_captured_empty parse nlv max fs c :
  string_captured_unique_values fs = ∅ ->
  string_captured_unique_values (analyze_cell parse nlv max false fs c) = ∅.
Proof. intros Hfs. rewrite cell_captured. exact Hfs. Qed.

(** C5.  At every point of the fold of every column, in every run, the
    captured set holds at most [max_capture_count] values (first and second
    part); once the overflow flag is true it is true in every later state of
    the column, within a batch (third part) and across the batches that
    follow (fourth part); for a capture column, or any column when
    [max_capture_count] is positive as the spec requires, a cell sets the
    flag exactly when it is not in the set while the set holds
    [max_capture_count] values (fifth part); and Scenario C: capture column,
    bound 2, cells "a", "b", "c", "a" give the set {"a", "b"} and the flag
    true. *)
Theorem capture_bounded_and_overflow_sticky
    (try_parse_float : string -> option float) (null_like_values : gset string)
    (capture_columns : gset N) (max_capture_count : N) (should_capture : bool) :
  should_capture = true \/ (0 < max_capture_count)%N ->
  (forall name cells,
     Forall (capture_bounded max_capture_count)
       (new_column_analysis name ::
        cell_trace try_parse_float null_like_values max_capture_count
          should_capture (new_column_analysis name) cells)) /\
  (forall reader,
     Forall (capture_bounded max_capture_count)
       (outcome_columns
          (analyze_dataset try_parse_float null_like_values capture_columns
             max_capture_count reader))) /\
  (forall fs cells,
     Forall (overflow_kept fs)
       (cell_trace try_parse_float null_like_values max_capture_count
          should_capture fs cells)) /\
  (forall r1 r2 columns1 i fs,
     analyze_dataset try_parse_float null_like_values capture_columns
       max_capture_count r1 = Returned columns1 ->
     columns1 !! i = Some fs ->
     exists fs',
       outcome_columns
         (analyze_dataset try_parse_float null_like_values capture_columns
            max_capture_count (r1 ++ r2)) !! i = Some fs' /\
       overflow_kept fs fs') /\
  (forall name cells as_string,
     let fs := analyze_cells try_parse_float null_like_values max_capture_count
                 should_capture (new_column_analysis name) cells in
     let captured := string_captured_unique_values fs in
     string_captured_unique_values_overflowed
       (analyze_cell try_parse_float null_like_values max_capture_count
          should_capture fs as_string)
     = string_captured_unique_values_overflowed fs
       || (bool_decide (as_string ∉ captured)
           && (N.of_nat (size captured) =? max_capture_count)%N)) /\
  (let fs := analyze_cells try_parse_float null_like_values 2 true
               (new_column_analysis "x") ["a"; "b"; "c"; "a"]%string in
   string_captured_unique_values fs = {[ "a"%string; "b"%string ]} /\
   string_captured_unique_values_overflowed fs = true).
Proof.
  intros Hpos.
  assert (Hkept_trans : forall fs1 fs2 fs3,
            overflow_kept fs1 fs2 -> overflow_kept fs2 fs3 -> overflow_kept fs1 fs3)
    by (unfold overflow_kept; auto).
  split; [ | split; [ | split; [ | split; [ | split ] ] ] ].
  - intros nm l. constructor; [ apply capture_bounded_new | ].
    apply trace_invariant; [ | apply capture_bounded_new ].
    intros; now apply capture_bounded_cell.
  - intros reader. apply dataset_invariant; [ apply capture_bounded_new | ].
    intros; now apply capture_bounded_cell.
  - intros fs l. revert fs.
    induction l as [| c l IH]; intros fs; cbn [cell_trace]; constructor.
    + apply overflow_kept_cell.
    + eapply Forall_impl; [ apply IH | ].
      intros fs'. apply Hkept_trans, overflow_kept_cell.
  - intros r1 r2 columns1 i fs Hr1 Hi.
    eapply dataset_later; eauto.
    + unfold overflow_kept; auto.
    + intros; apply overflow_kept_cell.
  - intros nm l c. cbn zeta.
    set (fs := analyze_cells _ _ _ _ _ l).
    assert (Hinv : capture_bounded max_capture_count fs /\
                   (should_capture = false -> string_captured_unique_values fs = ∅)).
    { subst fs.
      apply (cells_invariant try_parse_float null_like_values max_capture_count
               (fun fs => capture_bounded max_capture_count fs /\
                  (should_capture = false -> string_captured_unique_values fs = ∅))).
      - intros fs c0 [Hb He]. split; [ now apply capture_bounded_cell | ].
        intros ->. apply not_captured_empty. auto.
      - split; [ apply capture_bounded_new | reflexivity ]. }
    destruct Hinv as [Hb He]. unfold capture_bounded in Hb.
    rewrite cell_overflowed. f_equal.
    destruct should_capture; cbn [andb].
    + rewrite andb_comm. f_equal.
      destruct (N.ltb_spec (N.of_nat (size (string_captured_unique_values fs)))
                  max_capture_count);
        destruct (N.eqb_spec (N.of_nat (size (string_captured_unique_values fs)))
                    max_capture_count); cbn; try reflexivity; lia.
    + destruct Hpos as [? | Hpos]; [ discriminate | ].
      rewrite (He eq_refl), size_empty.
      destruct (N.eqb_spec (N.of_nat 0) max_capture_count); [ lia | ].
      now rewrite andb_false_r.
  - cbn zeta. split.
    + unfold analyze_cells. cbn [foldl]. rewrite !cell_captured.
      cbn. apply set_eq. intros x. vm_compute size. set_solver.
    + unfold analyze_cells. cbn [foldl]. rewrite !cell_overflowed, !cell_captured.
      vm_compute. reflexivity.
Qed.

(** Scenario C on a capture column. *)
Lemma capture_bounded_and_overflow_sticky_witness :
  (true = true \/ (0 < 2)%N) /\
  let fs := analyze_cells parse_decimal ∅ 2 true
              (new_column_analysis "x") ["a"; "b"; "c"; "a"]%string in
  string_captured_unique_values fs = {[ "a"%string; "b"%string ]} /\
  string_captured_unique_values_overflowed fs = true.
Proof.
  split; [ left; reflexivity | ].
  apply (capture_bounded_and_overflow_sticky parse_decimal ∅ ∅ 2 true).
  left; reflexivity.
Defined.

(** ** The driver: column types *)

Lemma forallb_is_string_false (l : list tensor) :
  (exists t, t ∈ l /\ dtype t <> dt_string) -> forallb is_string l = false.
Proof.
  intros (t & Hin & Hdt).
  destruct (forallb is_string l) eqn:E; [ | reflexivity ].
  rewrite forallb_forall in E. apply list_elem_of_In in Hin.
  specialize (E t Hin). unfold is_string in E.
  destruct (dtype t); congruence.
Qed.

(** C7, as the spec has it, fails on the code: the driver allocates the
    accumulators of the first batch before it looks at the column types.  A
    first batch with one [float32] column "x": the exception leaves behind a
    vector that holds the accumulator of "x". *)
Lemma accumulators_created_before_type_check :
  let first := {| descriptors := [ {| name := "x" |} ];
                  features := [ {| dtype := dt_float32; cells_of := [] |} ] |} in
  analyze_dataset parse_decimal ∅ ∅ 5000 [first]
  = Thrown unsupported_type_error [new_column_analysis "x"] /\
  [new_column_analysis "x"] <> [].
Proof. split; [ vm_compute; reflexivity | discriminate ]. Qed.

(** C7, amended.  If a column of the first batch has a type other than the
    string type, the analysis ends with the runtime error "Data insights
    only works with string tensors." and returns no result; no cell has been
    folded at that point, and the vector of accumulators, which the driver
    allocates before the check, holds one accumulator per descriptor of the
    batch, each as its constructor left it. *)
Theorem unsupported_column_type_fails_first
    (try_parse_float : string -> option float) (null_like_values : gset string)
    (capture_columns : gset N) (max_capture_count : N)
    (first : example) (rest : list example) :
  (exists t, t ∈ features first /\ dtype t <> dt_string) ->
  analyze_dataset try_parse_float null_like_values capture_columns
    max_capture_count (first :: rest)
  = Thrown unsupported_type_error
      (map (fun desc => new_column_analysis (name desc)) (descriptors first)) /\
  (forall columns,
     analyze_dataset try_parse_float null_like_values capture_columns
       max_capture_count (first :: rest) <> Returned columns) /\
  Forall (fun fs => rows_seen fs = 0)
    (outcome_columns
       (analyze_dataset try_parse_float null_like_values capture_columns
          max_capture_count (first :: rest))).
Proof.
  intros Hbad. apply forallb_is_string_false in Hbad.
  assert (E : analyze_dataset try_parse_float null_like_values capture_columns
                max_capture_count (first :: rest)
              = Thrown unsupported_type_error
                  (map (fun desc => new_column_analysis (name desc)) (descriptors first))).
  { unfold analyze_dataset. cbn [analyze_loop allocate]. rewrite Hbad. reflexivity. }
  rewrite E. split; [ reflexivity | split; [ discriminate | ] ].
  cbn [outcome_columns]. apply Forall_map, Forall_forall. reflexivity.
Qed.

(** A first batch whose second column is [sint32]. *)
Lemma unsupported_column_type_fails_first_witness :
  let first := {| descriptors := [ {| name := "x" |}; {| name := "y" |} ];
                  features := [ {| dtype := dt_string; cells_of := ["1"] |};
                                {| dtype := dt_sint32; cells_of := [] |} ] |} in
  analyze_dataset parse_decimal ∅ ∅ 5000 [first]
  = Thrown unsupported_type_error
      (map (fun desc => new_column_analysis (name desc)) (descriptors first)).
Proof.
  apply (unsupported_column_type_fails_first parse_decimal ∅ ∅ 5000).
  exists {| dtype := dt_sint32; cells_of := [] |}.
  split; [ | discriminate ].
  apply list_elem_of_In. right. left. reflexivity.
Defined.

(** ** The driver: column counts *)

Lemma string_columns_lookup n exm i :
  string_columns n exm -> (i < n)%nat ->
  exists t, features exm !! i = Some t /\ dtype t = dt_string.
Proof.
  intros [Hlen Hall] Hi.
  destruct (lookup_lt_is_Some_2 (features exm) i ltac:(lia)) as [t Ht].
  exists t. split; [ exact Ht | ].
  rewrite Forall_lookup in Hall. apply (Hall i).
  rewrite lookup_take_lt; auto.
Qed.

Section ColumnCount.

Context (try_parse_float : string -> option float)
        (null_like_values : gset string)
        (capture_columns : gset N)
        (max_capture_count : N).

Local Abbreviation range :=
  (analyze_range try_parse_float null_like_values capture_columns max_capture_count).
Local Abbreviation loop :=
  (analyze_loop try_parse_float null_like_values capture_columns max_capture_count).

Lemma range_length exm columns : forall feature_idx,
  length (range exm feature_idx columns).2 = length columns.
Proof.
  induction columns as [| fs rest IH]; intros idx; cbn; [ reflexivity | ].
  destruct (features exm !! idx) as [t |]; [ | reflexivity ].
  destruct (as_strings t) as [e | l]; [ reflexivity | ].
  specialize (IH (S idx)).
  destruct (range exm (S idx) rest) as [e rest']; cbn in *. congruence.
Qed.

Lemma as_strings_string t : dtype t = dt_string -> as_strings t = inr (cells_of t).
Proof. unfold as_strings. now intros ->. Qed.

Lemma range_no_throw exm columns : forall feature_idx,
  string_columns (feature_idx + length columns) exm ->
  (range exm feature_idx columns).1 = None.
Proof.
  induction columns as [| fs rest IH]; intros idx Hcols; cbn; [ reflexivity | ].
  cbn [length] in Hcols.
  destruct (string_columns_lookup _ exm idx Hcols ltac:(lia)) as (t & -> & Ht).
  rewrite (as_strings_string t Ht).
  specialize (IH (S idx)).
  replace (S idx + length rest)%nat with (idx + S (length rest))%nat in IH by lia.
  specialize (IH Hcols).
  destruct (range exm (S idx) rest) as [e rest']; cbn in *. exact IH.
Qed.

Lemma range_out_of_range exm columns : forall feature_idx,
  Forall (fun t => dtype t = dt_string) (features exm) ->
  (feature_idx <= length (features exm))%nat ->
  (length (features exm) < feature_idx + length columns)%nat ->
  (range exm feature_idx columns).1 = Some out_of_range.
Proof.
  induction columns as [| fs rest IH]; intros idx Hall Hidx Hlen; cbn.
  - cbn in Hlen. lia.
  - destruct (features exm !! idx) as [t |] eqn:Ht; [ | reflexivity ].
    rewrite Forall_lookup in Hall.
    rewrite (as_strings_string t (Hall idx t Ht)).
    apply lookup_lt_Some in Ht. cbn [length] in Hlen.
    rewrite <- Forall_lookup in Hall.
    specialize (IH (S idx) Hall ltac:(lia) ltac:(lia)).
    destruct (range exm (S idx) rest) as [e rest']; cbn in *. exact IH.
Qed.

Lemma range_keep_columns n exm columns : forall feature_idx,
  (feature_idx + length columns <= n)%nat ->
  range (keep_columns n exm) feature_idx columns = range exm feature_idx columns.
Proof.
  induction columns as [| fs rest IH]; intros idx Hn; cbn; [ reflexivity | ].
  cbn [length] in Hn. rewrite lookup_take_lt by lia.
  destruct (features exm !! idx) as [t |]; [ | reflexivity ].
  destruct (as_strings t) as [e | l]; [ reflexivity | ].
  rewrite IH by lia. reflexivity.
Qed.

(** Batches that bring at least the columns of the vector: the loop
    returns, and what it returns does not depend on the extra columns. *)
Lemma loop_ignores_extra later : forall columns,
  columns <> [] ->
  Forall (string_columns (length columns)) later ->
  exists columns',
    loop columns later = Returned columns' /\
    length columns' = length columns /\
    loop columns (map (keep_columns (length columns)) later) = Returned columns'.
Proof.
  induction later as [| exm later IH]; intros columns Hne Hall; cbn [map analyze_loop].
  - exists columns. auto.
  - inversion Hall as [| ? ? Hexm Hlater]; subst.
    destruct columns as [| fs0 columns0]; [ congruence | ].
    cbn [allocate].
    rewrite range_keep_columns by (cbn; lia).
    pose proof (range_no_throw exm (fs0 :: columns0) 0 Hexm) as Hfst.
    pose proof (range_length exm (fs0 :: columns0) 0) as Hlen.
    destruct (range exm 0 (fs0 :: columns0)) as [e columns2]; cbn in Hfst, Hlen.
    subst e.
    assert (Hne2 : columns2 <> []) by (intros ->; cbn in Hlen; lia).
    change (S (length columns0)) with (length (fs0 :: columns0)) in Hlen.
    rewrite <- Hlen in Hlater.
    destruct (IH columns2 Hne2 Hlater) as (columns' & E1 & E2 & E3).
    exists columns'. rewrite <- Hlen. rewrite E1, E3. repeat split; auto.
Qed.

(** A batch with fewer columns than the vector, after batches that bring
    enough of them: [features().at] throws. *)
Lemma loop_throws_on_fewer mids short rest : forall columns,
  columns <> [] ->
  Forall (string_columns (length columns)) mids ->
  Forall (fun t => dtype t = dt_string) (features short) ->
  (length (features short) < length columns)%nat ->
  exists columns', loop columns (mids ++ short :: rest) = Thrown out_of_range columns'.
Proof.
  induction mids as [| exm mids IH]; intros columns Hne Hall Hshort Hlen;
    cbn [app analyze_loop].
  - destruct columns as [| fs0 columns0]; [ congruence | ].
    cbn [allocate].
    pose proof (range_out_of_range short (fs0 :: columns0) 0 Hshort ltac:(lia) Hlen) as Hfst.
    destruct (range short 0 (fs0 :: columns0)) as [e columns2]; cbn in Hfst.
    subst e. eauto.
  - inversion Hall as [| ? ? Hexm Hmids]; subst.
    destruct columns as [| fs0 columns0]; [ congruence | ].
    cbn [allocate].
    pose proof (range_no_throw exm (fs0 :: columns0) 0 Hexm) as Hfst.
    pose proof (range_length exm (fs0 :: columns0) 0) as Hl.
    destruct (range exm 0 (fs0 :: columns0)) as [e columns2]; cbn in Hfst, Hl.
    subst e.
    assert (Hne2 : columns2 <> []) by (intros ->; cbn in Hl; lia).
    change (S (length columns0)) with (length (fs0 :: columns0)) in Hl.
    rewrite <- Hl in Hmids, Hlen.
    apply (IH columns2 Hne2 Hmids Hshort Hlen).
Qed.

End ColumnCount.

Lemma forallb_is_string_true (l : list tensor) :
  Forall (fun t => dtype t = dt_string) l -> forallb is_string l = true.
Proof.
  intros Hall. apply forallb_forall. intros t Hin.
  rewrite Forall_forall in Hall. apply list_elem_of_In in Hin.
  unfold is_string. now rewrite (Hall t Hin).
Qed.

(** C8, as the spec has it, fails on the code: the driver never compares
    column counts.  A first batch with one column and a second batch with
    two: the run returns a result, the one it returns when the second batch
    is cut down to its first column. *)
Lemma extra_columns_silently_ignored :
  let str cells := {| dtype := dt_string; cells_of := cells |} in
  let first := {| descriptors := [ {| name := "x" |} ];
                  features := [ str ["1"] ] |} in
  let second := {| descriptors := [ {| name := "x" |}; {| name := "y" |} ];
                   features := [ str ["2"]; str ["abc"] ] |} in
  length (features second) <> length (features first) /\
  (exists columns,
     analyze_dataset parse_decimal ∅ ∅ 5000 [first; second] = Returned columns /\
     rows_seen <$> columns = [2]) /\
  analyze_dataset parse_decimal ∅ ∅ 5000 [first; second]
  = analyze_dataset parse_decimal ∅ ∅ 5000 [first; keep_columns 1 second].
Proof.
  cbn zeta. split; [ cbn; lia | split ].
  - eexists. split; [ vm_compute; reflexivity | vm_compute; reflexivity ].
  - vm_compute. reflexivity.
Qed.

(** C8, amended.  After a first batch with [n > 0] string columns, a later
    batch with fewer than [n] columns makes the bounds-checked
    [features().at(feature_idx)] throw [std::out_of_range], and no result is
    returned; batches with [n] columns or more do not stop the run: it
    returns [n] accumulators, the same as when every later batch is cut down
    to its first [n] columns. *)
Theorem column_count_mismatch_behaviour
    (try_parse_float : string -> option float) (null_like_values : gset string)
    (capture_columns : gset N) (max_capture_count : N) (first : example) :
  let n := length (descriptors first) in
  let run := analyze_dataset try_parse_float null_like_values capture_columns
               max_capture_count in
  (0 < n)%nat ->
  (n <= length (features first))%nat ->
  Forall (fun t => dtype t = dt_string) (features first) ->
  (forall mids short rest,
     Forall (string_columns n) mids ->
     Forall (fun t => dtype t = dt_string) (features short) ->
     (length (features short) < n)%nat ->
     exists columns, run (first :: mids ++ short :: rest) = Thrown out_of_range columns) /\
  (forall later,
     Forall (string_columns n) later ->
     exists columns,
       run (first :: later) = Returned columns /\
       length columns = n /\
       run (first :: map (keep_columns n) later) = Returned columns).
Proof.
  intros n run Hn Hlen Hall. subst run. unfold analyze_dataset.
  cbn [analyze_loop allocate].
  rewrite (forallb_is_string_true _ Hall).
  set (columns1 := map (fun desc => new_column_analysis (name desc)) (descriptors first)).
  assert (Hl1 : length columns1 = n) by (unfold columns1; now rewrite length_map).
  assert (Hfirst : string_columns (0 + length columns1) first).
  { rewrite Hl1. split; [ exact Hlen | ]. now apply Forall_take. }
  pose proof (range_no_throw try_parse_float null_like_values capture_columns
                max_capture_count first columns1 0 Hfirst) as Hfst.
  pose proof (range_length try_parse_float null_like_values capture_columns
                max_capture_count first columns1 0) as Hl2.
  destruct (analyze_range _ _ _ _ first 0 columns1) as [e columns2]; cbn in Hfst, Hl2.
  subst e. rewrite Hl1 in Hl2.
  assert (Hne2 : columns2 <> []) by (intros ->; cbn in Hl2; lia).
  split.
  - intros mids short rest Hmids Hshort Hfew.
    rewrite <- Hl2 in Hmids, Hfew.
    apply loop_throws_on_fewer; assumption.
  - intros later Hlater. rewrite <- Hl2 in Hlater |- *.
    apply loop_ignores_extra; assumption.
Qed.

(** Two columns first, then a batch with one column. *)
Lemma column_count_mismatch_behaviour_witness :
  let str cells := {| dtype := dt_string; cells_of := cells |} in
  let first := {| descriptors := [ {| name := "x" |}; {| name := "y" |} ];
                  features := [ str ["1"]; str ["a"] ] |} in
  let short := {| descriptors := [ {| name := "x" |} ];
                  features := [ str ["2"] ] |} in
  exists columns,
    analyze_dataset parse_decimal ∅ ∅ 5000 (first :: [] ++ short :: [])
    = Thrown out_of_range columns.
Proof.
  cbn zeta.
  apply (column_count_mismatch_behaviour parse_decimal ∅ ∅ 5000
           {| descriptors := [ {| name := "x" |}; {| name := "y" |} ];
              features := [ {| dtype := dt_string; cells_of := ["1"] |};
                            {| dtype := dt_string; cells_of := ["a"] |} ] |}).
  - cbn; lia.
  - cbn; lia.
  - repeat constructor.
  - constructor.
  - repeat constructor.
  - cbn; lia.
Defined.

(** * Further properties of the code *)

(** ** [mlio/util/string.cxx]: trimming *)

Section Trimming.

Import StringUtil.

Local Abbreviation space := (fun ch => isspace ch = true).

Lemma find_if_not_bound p l : (find_if_not p l <= length l)%nat.
Proof. induction l as [| ch l IH]; cbn; [ lia | ]. destruct (p ch); lia. Qed.

Lemma find_if_not_prefix p l :
  Forall (fun ch => p ch = true) (take (find_if_not p l) l).
Proof.
  induction l as [| ch l IH]; cbn; [ constructor | ].
  destruct (p ch) eqn:Hp; cbn; constructor; assumption.
Qed.

Lemma find_if_not_stop p l ch :
  head (drop (find_if_not p l) l) = Some ch -> p ch = false.
Proof.
  induction l as [| c l IH]; cbn; [ discriminate | ].
  destruct (p c) eqn:Hp; cbn; [ exact IH | ]. intros [= <-]. exact Hp.
Qed.

Lemma find_if_not_head p l ch :
  head l = Some ch -> p ch = false -> find_if_not p l = 0%nat.
Proof. destruct l as [| c l]; cbn; [ discriminate | ]. intros [= ->] ->. reflexivity. Qed.

(** [rtrim] is [ltrim] seen from the other end. *)
Lemma rtrim_rev l : rtrim l = rev (ltrim (rev l)).
Proof.
  unfold rtrim, ltrim. cbn zeta.
  rewrite skipn_rev, rev_involutive. reflexivity.
Qed.

Lemma ltrim_split l :
  l = take (find_first_non_space l) l ++ ltrim l.
Proof. unfold ltrim. cbn zeta. now rewrite take_drop. Qed.

Lemma rtrim_split l :
  l = rtrim l ++ rev (take (find_first_non_space (rev l)) (rev l)).
Proof.
  rewrite rtrim_rev, <- rev_app_distr, <- ltrim_split, rev_involutive. reflexivity.
Qed.

Lemma last_rev_head {A} (l : list A) : last l = head (rev l).
Proof.
  induction l as [| a l IH] using rev_ind; [ reflexivity | ].
  rewrite last_snoc, rev_app_distr. reflexivity.
Qed.

Lemma ltrim_head l ch : head (ltrim l) = Some ch -> isspace ch = false.
Proof. apply find_if_not_stop. Qed.

Lemma rtrim_last l ch : last (rtrim l) = Some ch -> isspace ch = false.
Proof.
  rewrite rtrim_rev, last_rev_head, rev_involutive. apply ltrim_head.
Qed.

Lemma ltrim_fixed l :
  (forall ch, head l = Some ch -> isspace ch = false) -> ltrim l = l.
Proof.
  intros Hh. unfold ltrim, find_first_non_space. cbn zeta.
  destruct l as [| c l]; [ reflexivity | ].
  rewrite (find_if_not_head isspace (c :: l) c eq_refl (Hh c eq_refl)). reflexivity.
Qed.

Lemma rtrim_fixed l :
  (forall ch, last l = Some ch -> isspace ch = false) -> rtrim l = l.
Proof.
  intros Hl. rewrite rtrim_rev, ltrim_fixed, rev_involutive; [ reflexivity | ].
  intros ch. rewrite <- last_rev_head. apply Hl.
Qed.

(** Cutting the end off does not bring whitespace to the front. *)
Lemma rtrim_head l ch :
  (forall c, head l = Some c -> isspace c = false) ->
  head (rtrim l) = Some ch -> isspace ch = false.
Proof.
  intros Hh. unfold rtrim. cbn zeta.
  destruct l as [| c l]; [ rewrite take_nil; discriminate | ].
  destruct (length (c :: l) - find_first_non_space (rev (c :: l)))%nat; cbn;
    [ discriminate | ].
  intros [= <-]. now apply Hh.
Qed.

Lemma trim_list s :
  list_ascii_of_string (trim s) = rtrim (ltrim (list_ascii_of_string s)).
Proof. unfold trim. apply list_ascii_of_string_of_list_ascii. Qed.

Lemma trim_split s :
  exists pre suf,
    list_ascii_of_string s = pre ++ list_ascii_of_string (trim s) ++ suf /\
    Forall space pre /\ Forall space suf.
Proof.
  rewrite trim_list. set (l := list_ascii_of_string s).
  exists (take (find_first_non_space l) l),
         (rev (take (find_first_non_space (rev (ltrim l))) (rev (ltrim l)))).
  split; [ | split ].
  - rewrite <- rtrim_split. apply ltrim_split.
  - apply find_if_not_prefix.
  - apply Forall_rev. apply find_if_not_prefix.
Qed.

Lemma trim_head s ch :
  head (list_ascii_of_string (trim s)) = Some ch -> isspace ch = false.
Proof. rewrite trim_list. apply rtrim_head. apply ltrim_head. Qed.

Lemma trim_last s ch :
  last (list_ascii_of_string (trim s)) = Some ch -> isspace ch = false.
Proof. rewrite trim_list. apply rtrim_last. Qed.

(** [trim] removes a run of whitespace at each end and nothing else: the
    string is a whitespace prefix, the trimmed string and a whitespace
    suffix, and the trimmed string neither starts nor ends with
    whitespace. *)
Theorem trim_removes_surrounding_whitespace (s : string) :
  let t := list_ascii_of_string (trim s) in
  (exists pre suf,
     list_ascii_of_string s = pre ++ t ++ suf /\
     Forall space pre /\ Forall space suf) /\
  (forall ch, head t = Some ch -> isspace ch = false) /\
  (forall ch, last t = Some ch -> isspace ch = false).
Proof.
  cbn zeta. split; [ apply trim_split | split ].
  - intros ch. apply trim_head.
  - intros ch. apply trim_last.
Qed.

(** Trimming twice is trimming once. *)
Theorem trim_idempotent (s : string) : trim (trim s) = trim s.
Proof.
  unfold trim at 1.
  rewrite (ltrim_fixed _ (trim_head s)), (rtrim_fixed _ (trim_last s)).
  apply string_of_list_ascii_of_string.
Qed.

(** [only_whitespace] holds exactly of the strings that [trim] empties. *)
Theorem only_whitespace_iff_trim_empty (s : string) :
  only_whitespace s = true <-> trim s = ""%string.
Proof.
  rewrite only_whitespace_spec. split.
  - intros Hall. apply find_if_not_all in Hall.
    unfold trim, ltrim, find_first_non_space. cbn zeta.
    rewrite Hall, drop_all. reflexivity.
  - intros Ht.
    destruct (trim_split s) as (pre & suf & E & Hp & Hs).
    rewrite Ht in E. cbn in E. rewrite E.
    apply Forall_app. auto.
Qed.

End Trimming.

(** ** [matches] and the case folding of [column_analyzer] *)

Section CaseFolding.

Import StringUtil.



Lemma isspace_tolower ch : isspace (tolower ch) = isspace ch.
Proof. destruct ch as [[] [] [] [] [] [] [] []]; reflexivity. Qed.

Lemma tolower_tolower ch : tolower (tolower ch) = tolower ch.
Proof. destruct ch as [[] [] [] [] [] [] [] []]; reflexivity. Qed.

Lemma tolower_not_upper ch :
  let n := nat_of_ascii (tolower ch) in (65 <=? n)%nat && (n <=? 90)%nat = false.
Proof. destruct ch as [[] [] [] [] [] [] [] []]; reflexivity. Qed.

Lemma transform_tolower_list s :
  list_ascii_of_string (transform_tolower s) = map tolower (list_ascii_of_string s).
Proof. induction s as [| ch s IH]; cbn; congruence. Qed.

Lemma transform_tolower_of_list l :
  string_of_list_ascii (map tolower l) = transform_tolower (string_of_list_ascii l).
Proof. induction l as [| ch l IH]; cbn; congruence. Qed.

Lemma find_first_non_space_tolower l :
  find_first_non_space (map tolower l) = find_first_non_space l.
Proof.
  unfold find_first_non_space.
  induction l as [| ch l IH]; cbn; [ reflexivity | ].
  rewrite isspace_tolower, IH. reflexivity.
Qed.

Lemma ltrim_tolower l : ltrim (map tolower l) = map tolower (ltrim l).
Proof.
  unfold ltrim. cbn zeta. rewrite find_first_non_space_tolower.
  apply skipn_map.
Qed.

Lemma rtrim_tolower l : rtrim (map tolower l) = map tolower (rtrim l).
Proof.
  unfold rtrim. cbn zeta.
  rewrite <- map_rev, find_first_non_space_tolower, length_map.
  apply firstn_map.
Qed.

(** The case folding keeps the length, changes nothing when applied a
    second time, and leaves no letter between 'A' and 'Z'. *)
Theorem transform_tolower_folds_case (s : string) :
  String.length (transform_tolower s) = String.length s /\
  transform_tolower (transform_tolower s) = transform_tolower s /\
  Forall (fun ch => let n := nat_of_ascii ch in
                    (65 <=? n)%nat && (n <=? 90)%nat = false)
    (list_ascii_of_string (transform_tolower s)).
Proof.
  split; [ | split ].
  - induction s as [| ch s IH]; cbn; congruence.
  - induction s as [| ch s IH]; cbn; [ reflexivity | ].
    rewrite tolower_tolower, IH. reflexivity.
  - induction s as [| ch s IH]; cbn; constructor; [ | exact IH ].
    apply tolower_not_upper.
Qed.

(** Case folding and whitespace do not interfere: folding commutes with
    [trim], and a cell is whitespace only exactly when its folded form is. *)
Theorem transform_tolower_keeps_whitespace (s : string) :
  trim (transform_tolower s) = transform_tolower (trim s) /\
  only_whitespace (transform_tolower s) = only_whitespace s.
Proof.
  split.
  - unfold trim.
    rewrite transform_tolower_list, ltrim_tolower, rtrim_tolower.
    apply transform_tolower_of_list.
  - unfold only_whitespace. cbn zeta.
    rewrite transform_tolower_list, length_map.
    change (find_if_not isspace) with find_first_non_space.
    rewrite find_first_non_space_tolower. reflexivity.
Qed.

End CaseFolding.

(** ** What the fold of a column computes *)

Lemma long_wrap_idem z : long_wrap (long_wrap z) = long_wrap z.
Proof. apply long_wrap_small, long_wrap_range. Qed.

Section FoldCounts.

Context (try_parse_float : string -> option float)
        (null_like_values : gset string)
        (max_capture_count : N)
        (should_capture : bool).

Local Abbreviation cell :=
  (analyze_cell try_parse_float null_like_values max_capture_count should_capture).
Local Abbreviation cells :=
  (analyze_cells try_parse_float null_like_values max_capture_count should_capture).

(** A counter that a cell increments when [p] holds of it counts, modulo
    the width of a [long], the cells of which [p] holds. *)
Lemma counter_counts (field : column_analysis -> Z) (p : string -> bool) :
  (forall fs c, field (cell fs c) = if p c then long_add (field fs) 1 else field fs) ->
  forall l fs, long_wrap (field fs) = field fs ->
    field (cells fs l) = long_wrap (field fs + Z.of_nat (length (List.filter p l))).
Proof.
  intros Hstep l. unfold analyze_cells.
  induction l as [| c l IH]; intros fs Hfs; cbn [foldl List.filter].
  - cbn. now rewrite Z.add_0_r.
  - rewrite IH.
    + rewrite Hstep. destruct (p c); cbn [length]; [ | reflexivity ].
      unfold long_add. rewrite long_wrap_add_l. f_equal. lia.
    + rewrite Hstep. destruct (p c); [ apply long_wrap_idem | exact Hfs ].
Qed.

Lemma null_like_counts l : forall fs,
  long_wrap (string_null_like_count fs) = string_null_like_count fs ->
  string_null_like_count (cells fs l) =
    long_wrap (string_null_like_count fs + Z.of_nat (length l)
               + Z.of_nat (length (List.filter
                   (fun c => StringUtil.matches (transform_tolower c) null_like_values) l))).
Proof.
  unfold analyze_cells.
  induction l as [| c l IH]; intros fs Hfs; cbn [foldl List.filter].
  - cbn. now rewrite !Z.add_0_r.
  - rewrite IH.
    + rewrite cell_string_null_like_count.
      destruct (StringUtil.matches (transform_tolower c) null_like_values);
        cbn [length]; unfold long_add;
        repeat (rewrite <- ?Z.add_assoc; rewrite long_wrap_add_l);
        f_equal; lia.
    + rewrite cell_string_null_like_count.
      destruct (StringUtil.matches (transform_tolower c) null_like_values);
        apply long_wrap_idem.
Qed.

Lemma example_value_cell fs c : example_value (cell fs c) = c.
Proof. unfold analyze_cell. destruct should_capture; repeat case_match; reflexivity. Qed.

Lemma example_value_last l : forall fs,
  example_value (cells fs l) = List.last l (example_value fs).
Proof.
  unfold analyze_cells.
  induction l as [| c l IH]; intros fs; [ reflexivity | ].
  cbn [foldl]. rewrite IH, example_value_cell.
  clear. revert c. induction l as [| c' l IH]; intros c; [ reflexivity | ].
  cbn [List.last]. destruct l as [| c'' l]; [ reflexivity | ].
  specialize (IH c). cbn [List.last] in IH. exact IH.
Qed.

Lemma column_name_kept l : forall fs, column_name (cells fs l) = column_name fs.
Proof.
  unfold analyze_cells.
  induction l as [| c l IH]; intros fs; [ reflexivity | ].
  cbn [foldl]. rewrite IH. unfold analyze_cell.
  destruct should_capture; repeat case_match; reflexivity.
Qed.

End FoldCounts.

(** The fold of a column of fewer than [2 ^ 62] cells, from the
    constructor's state: [rows_seen] is the number of cells,
    [numeric_count] and [numeric_nan_count] the numbers of cells that parse
    and that do not, [string_empty_count] the number of cells of length
    zero, [string_only_whitespace_count] the number of cells that
    [only_whitespace] accepts, [string_null_like_count] the number of cells
    plus the number of cells whose case-folded form is in [null_like_values];
    [example_value] is the last cell and [column_name] the name given to the
    constructor. *)
Theorem fold_counts_cells
    (try_parse_float : string -> option float) (null_like_values : gset string)
    (max_capture_count : N) (should_capture : bool)
    (name : string) (cells : list string) :
  Z.of_nat (length cells) < 2 ^ 62 ->
  let fs := analyze_cells try_parse_float null_like_values max_capture_count
              should_capture (new_column_analysis name) cells in
  let count p := Z.of_nat (length (List.filter p cells)) in
  rows_seen fs = Z.of_nat (length cells) /\
  numeric_count fs = count (fun c => bool_decide (is_Some (try_parse_float c))) /\
  numeric_nan_count fs = count (fun c => bool_decide (try_parse_float c = None)) /\
  string_empty_count fs = count (fun c => (String.length c =? 0)%nat) /\
  string_only_whitespace_count fs = count StringUtil.only_whitespace /\
  string_null_like_count fs =
    Z.of_nat (length cells)
    + count (fun c => bool_decide (transform_tolower c ∈ null_like_values)) /\
  example_value fs = List.last cells ""%string /\
  column_name fs = name.
Proof.
  intros Hlen. cbn zeta.
  assert (Hfilter : forall p, Z.of_nat (length (List.filter p cells)) <= Z.of_nat (length cells)).
  { intros p. apply Nat2Z.inj_le, filter_length_le. }
  assert (Hsmall : forall p, long_wrap (0 + Z.of_nat (length (List.filter p cells)))
                             = Z.of_nat (length (List.filter p cells))).
  { intros p. specialize (Hfilter p). apply long_wrap_small. lia. }
  repeat split.
  - rewrite (counter_counts _ null_like_values max_capture_count should_capture
               rows_seen (fun _ => true)); [ | apply cell_rows_seen | reflexivity ].
    rewrite Hsmall. clear. induction cells; cbn [List.filter length]; lia.
  - rewrite (counter_counts _ null_like_values max_capture_count should_capture
               numeric_count (fun c => bool_decide (is_Some (try_parse_float c))));
      [ apply Hsmall | | reflexivity ].
    intros fs c. destruct (try_parse_float c) as [v |] eqn:Hv.
    + now destruct (cell_parsed _ null_like_values max_capture_count
                      should_capture fs c v Hv) as [-> _].
    + now destruct (cell_not_parsed _ null_like_values max_capture_count
                      should_capture fs c Hv) as [_ ->].
  - rewrite (counter_counts _ null_like_values max_capture_count should_capture
               numeric_nan_count (fun c => bool_decide (try_parse_float c = None)));
      [ apply Hsmall | | reflexivity ].
    intros fs c. destruct (try_parse_float c) as [v |] eqn:Hv.
    + now destruct (cell_parsed _ null_like_values max_capture_count
                      should_capture fs c v Hv) as [_ ->].
    + now destruct (cell_not_parsed _ null_like_values max_capture_count
                      should_capture fs c Hv) as [-> _].
  - rewrite (counter_counts _ null_like_values max_capture_count should_capture
               string_empty_count (fun c => (String.length c =? 0)%nat));
      [ apply Hsmall | | reflexivity ].
    intros fs c. apply cell_string_empty_count.
  - rewrite (counter_counts _ null_like_values max_capture_count should_capture
               string_only_whitespace_count StringUtil.only_whitespace);
      [ apply Hsmall | | reflexivity ].
    intros fs c. apply cell_string_only_whitespace_count.
  - rewrite null_like_counts by reflexivity.
    cbn [string_null_like_count new_column_analysis].
    specialize (Hfilter (fun c => StringUtil.matches (transform_tolower c) null_like_values)).
    rewrite long_wrap_small by lia. reflexivity.
  - apply example_value_last.
  - apply column_name_kept.
Qed.

(** Scenario A: five cells, two parse, one is empty, two are whitespace
    only (the empty one and "  "), none is null-like. *)
Lemma fold_counts_cells_witness :
  let fs := analyze_cells parse_decimal ∅ 5000 false (new_column_analysis "x")
              ["1"; "2"; ""; "  "; "abc"]%string in
  (rows_seen fs, numeric_count fs, numeric_nan_count fs) = (5, 2, 3) /\
  (string_empty_count fs, string_only_whitespace_count fs,
   string_null_like_count fs) = (1, 2, 5) /\
  example_value fs = "abc"%string.
Proof.
  pose proof (fold_counts_cells parse_decimal ∅ 5000 false "x"
                ["1"; "2"; ""; "  "; "abc"]%string ltac:(cbn; lia)) as H.
  cbn zeta in H |- *. destruct H as (-> & -> & -> & -> & -> & -> & -> & _).
  split; [ | split ]; vm_compute; reflexivity.
Defined.

(** ** What a capture column holds *)

Section Capture.

Context (try_parse_float : string -> option float)
        (null_like_values : gset string)
        (max_capture_count : N).

Local Abbreviation cell :=
  (analyze_cell try_parse_float null_like_values max_capture_count true).
Local Abbreviation cells :=
  (analyze_cells try_parse_float null_like_values max_capture_count true).

Local Abbreviation tracks := (capture_tracks max_capture_count).

Lemma size_add_old (c : string) (D : gset string) : c ∈ D -> {[ c ]} ∪ D = D.
Proof. intros Hin. apply subseteq_union_1_L. now apply singleton_subseteq_l. Qed.

Lemma size_add_new (c : string) (D : gset string) :
  c ∉ D -> size ({[ c ]} ∪ D) = S (size D).
Proof.
  intros Hout. rewrite size_union by now apply disjoint_singleton_l.
  now rewrite size_singleton.
Qed.

Lemma capture_tracks_new name : tracks (new_column_analysis name) ∅.
Proof.
  unfold capture_tracks. cbn. rewrite size_empty. split; [ auto | intros; lia ].
Qed.

Lemma tracks_cell fs D c : tracks fs D -> tracks (cell fs c) ({[ c ]} ∪ D).
Proof.
  unfold capture_tracks. cbn zeta. intros [Hle Hgt].
  rewrite cell_captured, cell_overflowed. cbn [andb].
  destruct (N.le_gt_cases (N.of_nat (size D)) max_capture_count) as [HD | HD].
  - destruct (Hle HD) as [-> ->]. clear Hle Hgt.
    destruct (N.ltb_spec (N.of_nat (size D)) max_capture_count) as [Hlt | Hge];
      cbn [negb andb orb].
    + pose proof (size_add_le c D).
      split; [ auto | intros; lia ].
    + destruct (decide (c ∈ D)) as [Hin | Hout].
      * rewrite (size_add_old c D Hin).
        rewrite bool_decide_eq_false_2 by auto.
        split; [ auto | intros; lia ].
      * rewrite (size_add_new c D Hout).
        rewrite bool_decide_eq_true_2 by auto.
        split; [ intros; lia | ].
        intros _. repeat split; [ set_solver | lia ].
  - destruct (Hgt HD) as (Hsub & Hsize & ->). clear Hle Hgt.
    rewrite Hsize, N.ltb_irrefl. cbn [orb].
    assert (size D <= size ({[ c ]} ∪ D))%nat by (apply subseteq_size; set_solver).
    split; [ intros; lia | ].
    intros _. repeat split; [ set_solver | exact Hsize ].
Qed.

Lemma tracks_cells l : forall fs D,
  tracks fs D -> tracks (cells fs l) (list_to_set l ∪ D).
Proof.
  unfold analyze_cells.
  induction l as [| c l IH]; intros fs D Hfs; cbn [foldl list_to_set].
  - now rewrite (left_id_L ∅ (∪)).
  - rewrite (comm_L (∪) {[ c ]} (list_to_set l)), <- (assoc_L (∪)).
    apply IH, tracks_cell, Hfs.
Qed.

(** A capture column against the set of distinct cells it has folded: the
    overflow flag is true exactly when there are more than
    [max_capture_count] distinct cells; the captured values are among the
    cells, [max_capture_count] of them or all if there are fewer; and as
    long as the distinct cells fit the bound the captured set is the set of
    all of them. *)
Theorem capture_keeps_distinct_cells (name : string) (l : list string) :
  let fs := cells (new_column_analysis name) l in
  let captured := string_captured_unique_values fs in
  let distinct : gset string := list_to_set l in
  string_captured_unique_values_overflowed fs
    = (max_capture_count <? N.of_nat (size distinct))%N /\
  captured ⊆ distinct /\
  N.of_nat (size captured) = N.min (N.of_nat (size distinct)) max_capture_count /\
  ((N.of_nat (size distinct) <= max_capture_count)%N -> captured = distinct).
Proof.
  cbn zeta.
  pose proof (tracks_cells l _ _ (capture_tracks_new name)) as [Hle Hgt].
  rewrite (right_id_L ∅ (∪)) in Hle, Hgt.
  destruct (N.le_gt_cases (N.of_nat (size (list_to_set l : gset string)))
              max_capture_count) as [HD | HD].
  - destruct (Hle HD) as [-> ->].
    repeat split; auto.
    + symmetry. now apply N.ltb_ge.
    + now rewrite N.min_l.
  - destruct (Hgt HD) as (Hsub & Hsize & ->).
    repeat split; auto.
    + symmetry. now apply N.ltb_lt.
    + rewrite N.min_r by lia. exact Hsize.
    + intros; lia.
Qed.

End Capture.

(** ** What the driver returns *)

Section DriverResult.

Context (try_parse_float : string -> option float)
        (null_like_values : gset string)
        (capture_columns : gset N)
        (max_capture_count : N).

Local Abbreviation cells := (analyze_cells try_parse_float null_like_values max_capture_count).
Local Abbreviation range :=
  (analyze_range try_parse_float null_like_values capture_columns max_capture_count).
Local Abbreviation loop :=
  (analyze_loop try_parse_float null_like_values capture_columns max_capture_count).
Local Abbreviation run :=
  (analyze_dataset try_parse_float null_like_values capture_columns max_capture_count).
Local Abbreviation captures := (fun i : nat => bool_decide (N.of_nat i ∈ capture_columns)).

Lemma column_cells_lookup exm i t : features exm !! i = Some t -> column_cells i exm = cells_of t.
Proof. unfold column_cells. now intros ->. Qed.

(** A batch that brings the columns of the range folds each into its
    accumulator. *)
Lemma range_result exm columns : forall feature_idx,
  string_columns (feature_idx + length columns) exm ->
  range exm feature_idx columns =
    (None, imap (fun k fs => cells (captures (feature_idx + k)%nat) fs
                               (column_cells (feature_idx + k)%nat exm)) columns).
Proof.
  induction columns as [| fs rest IH]; intros idx Hcols; [ reflexivity | ].
  cbn [analyze_range length] in *.
  destruct (string_columns_lookup _ exm idx Hcols ltac:(lia)) as (t & Ht & Hdt).
  rewrite Ht, (as_strings_string t Hdt), IH
    by (replace (S idx + length rest)%nat with (idx + S (length rest))%nat by lia;
        exact Hcols).
  rewrite imap_cons, Nat.add_0_r, (column_cells_lookup exm idx t Ht).
  do 2 f_equal. apply imap_ext. intros k fs' _. cbn.
  now replace (idx + S k)%nat with (S idx + k)%nat by lia.
Qed.

Lemma loop_result later : forall columns,
  columns <> [] ->
  Forall (string_columns (length columns)) later ->
  loop columns later =
    Returned (imap (fun i fs => cells (captures i) fs (column_stream i later)) columns).
Proof.
  induction later as [| exm later IH]; intros columns Hne Hall; cbn [analyze_loop].
  - f_equal. apply list_eq. intros i. rewrite list_lookup_imap.
    now destruct (columns !! i).
  - inversion Hall as [| ? ? Hexm Hlater]; subst.
    destruct columns as [| fs0 columns0]; [ congruence | ].
    cbn [allocate]. rewrite (range_result exm (fs0 :: columns0) 0 Hexm).
    set (columns2 := imap _ (fs0 :: columns0)).
    assert (Hlen : length columns2 = length (fs0 :: columns0))
      by (unfold columns2; apply length_imap).
    rewrite IH.
    + f_equal. apply list_eq. intros i. unfold columns2.
      rewrite !list_lookup_imap.
      destruct ((fs0 :: columns0) !! i) as [fs |]; [ | reflexivity ].
      cbn [fmap option_fmap option_map Nat.add]. f_equal.
      unfold column_stream. cbn [map concat].
      now rewrite cells_app.
    + intros E. rewrite E in Hlen. discriminate.
    + now rewrite Hlen.
Qed.

Lemma run_folded (first : example) (later : list example) :
  let n := length (descriptors first) in
  (0 < n)%nat ->
  (n <= length (features first))%nat ->
  Forall (fun t => dtype t = dt_string) (features first) ->
  Forall (string_columns n) later ->
  run (first :: later) =
    Returned (folded_columns try_parse_float null_like_values capture_columns
                max_capture_count (descriptors first) (first :: later)).
Proof.
  intros n Hn Hlen Hall Hlater. unfold analyze_dataset.
  assert (Hfirst : string_columns n first)
    by (split; [ exact Hlen | now apply Forall_take ]).
  change (first :: later) with ([first] ++ later) at 1.
  rewrite loop_app. cbn [analyze_loop allocate].
  rewrite (forallb_is_string_true _ Hall).
  set (columns1 := map (fun desc => new_column_analysis (name desc)) (descriptors first)).
  assert (Hl1 : length columns1 = n) by (unfold columns1; now rewrite length_map).
  rewrite (range_result first columns1 0) by (rewrite Hl1; exact Hfirst).
  set (columns2 := imap _ columns1).
  assert (Hl2 : length columns2 = n)
    by (unfold columns2; now rewrite length_imap).
  rewrite loop_result.
  - f_equal. unfold folded_columns, columns2, columns1.
    apply list_eq. intros i.
    rewrite !list_lookup_imap, list_lookup_fmap.
    destruct (descriptors first !! i) as [desc |]; [ | reflexivity ].
    cbn [fmap option_fmap option_map Nat.add]. f_equal.
    unfold column_stream. cbn [map concat].
    now rewrite cells_app.
  - intros E. rewrite E in Hl2. cbn in Hl2. lia.
  - now rewrite Hl2.
Qed.

(** A reader whose first batch has [n > 0] descriptors and only string
    columns, at least [n] of them, and whose later batches each bring at
    least [n] string columns: the driver returns [n] accumulators, one per
    descriptor of the first batch, in order; the accumulator at index [i] is
    the fold (from the constructor's state, named after the descriptor, with
    the capture choice of [i]) of all the cells of column [i], batch after
    batch. *)
Theorem analyze_dataset_folds_columns (first : example) (later : list example) :
  let n := length (descriptors first) in
  (0 < n)%nat ->
  (n <= length (features first))%nat ->
  Forall (fun t => dtype t = dt_string) (features first) ->
  Forall (string_columns n) later ->
  exists columns,
    run (first :: later) = Returned columns /\
    length columns = n /\
    forall i desc, descriptors first !! i = Some desc ->
      columns !! i =
        Some (cells (captures i) (new_column_analysis (name desc))
                (column_stream i (first :: later))).
Proof.
  intros n Hn Hlen Hall Hlater.
  exists (folded_columns try_parse_float null_like_values capture_columns
            max_capture_count (descriptors first) (first :: later)).
  split; [ now apply run_folded | split ].
  - unfold folded_columns. apply length_imap.
  - intros i desc Hi. unfold folded_columns.
    rewrite list_lookup_imap, Hi. reflexivity.
Qed.

End DriverResult.

(** One batch with the cells "1", "2" and "x" in column 0 (a capture
    column), then a batch with "3". *)
Lemma analyze_dataset_folds_columns_witness :
  let str cells := {| dtype := dt_string; cells_of := cells |} in
  let first := {| descriptors := [ {| name := "a" |} ];
                  features := [ str ["1"; "2"; "x"] ] |} in
  let second := {| descriptors := [ {| name := "a" |} ];
                   features := [ str ["3"] ] |} in
  exists columns,
    analyze_dataset parse_decimal ∅ {[ 0%N ]} 5000 [first; second] = Returned columns /\
    length columns = 1%nat /\
    forall i desc, descriptors first !! i = Some desc ->
      columns !! i =
        Some (analyze_cells parse_decimal ∅ 5000 (bool_decide (N.of_nat i ∈ ({[ 0%N ]} : gset N)))
                (new_column_analysis (name desc))
                (column_stream i [first; second])).
Proof.
  cbn zeta.
  apply (analyze_dataset_folds_columns parse_decimal ∅ {[ 0%N ]} 5000).
  - cbn; lia.
  - cbn; lia.
  - repeat constructor.
  - repeat constructor; cbn; lia.
Defined.

Section DriverShape.

Context (try_parse_float : string -> option float)
        (null_like_values : gset string)
        (capture_columns : gset N)
        (max_capture_count : N).

Local Abbreviation run :=
  (analyze_dataset try_parse_float null_like_values capture_columns max_capture_count).

(** How the rows are grouped in batches does not matter: two well-formed
    readers with the same descriptors in their first batch and, column by
    column, the same cells in arrival order give the same result. *)
Theorem batch_grouping_is_irrelevant
    (first1 first2 : example) (later1 later2 : list example) :
  let n := length (descriptors first1) in
  descriptors first1 = descriptors first2 ->
  (0 < n)%nat ->
  (n <= length (features first1))%nat ->
  (n <= length (features first2))%nat ->
  Forall (fun t => dtype t = dt_string) (features first1) ->
  Forall (fun t => dtype t = dt_string) (features first2) ->
  Forall (string_columns n) later1 ->
  Forall (string_columns n) later2 ->
  (forall i, (i < n)%nat ->
     column_stream i (first1 :: later1) = column_stream i (first2 :: later2)) ->
  run (first1 :: later1) = run (first2 :: later2).
Proof.
  intros n Hd Hn Hl1 Hl2 Hs1 Hs2 Hlater1 Hlater2 Hcells.
  rewrite (run_folded _ _ _ _ first1 later1) by assumption.
  rewrite (run_folded _ _ _ _ first2 later2) by (rewrite <- ?Hd; assumption).
  rewrite <- Hd. f_equal. unfold folded_columns.
  apply imap_ext. intros i desc Hi. cbn beta.
  rewrite Hcells; [ reflexivity | ].
  apply lookup_lt_Some in Hi. exact Hi.
Qed.

Lemma column_name_cell sc fs c :
  column_name (analyze_cell try_parse_float null_like_values max_capture_count sc fs c)
  = column_name fs.
Proof. unfold analyze_cell. destruct sc; repeat case_match; reflexivity. Qed.

Lemma Forall2_same_names (l1 l2 : list column_analysis) :
  Forall2 (fun fs fs' => column_name fs = column_name fs') l1 l2 ->
  column_name <$> l1 = column_name <$> l2.
Proof. induction 1; cbn; congruence. Qed.

(** The columns are those of the first batch with a schema.  When the first
    batch has descriptors, the vector the driver ends with, by a return or
    by an exception, holds one accumulator per descriptor, with the
    descriptors' names in order, whatever the later batches are.  When it
    has none (and no column of a type other than string), nothing is
    allocated and the run is the run on the batches that follow. *)
Theorem columns_fixed_by_first_schema (first : example) (rest : list example) :
  (descriptors first <> [] ->
   column_name <$> outcome_columns (run (first :: rest)) = name <$> descriptors first) /\
  (descriptors first = [] ->
   Forall (fun t => dtype t = dt_string) (features first) ->
   run (first :: rest) = run rest).
Proof.
  split.
  - intros Hne. unfold analyze_dataset. cbn [analyze_loop allocate].
    set (columns1 := map (fun desc => new_column_analysis (name desc)) (descriptors first)).
    assert (Hnames : column_name <$> columns1 = name <$> descriptors first).
    { unfold columns1. clear. induction (descriptors first); cbn; congruence. }
    assert (Hne1 : columns1 <> []).
    { unfold columns1. destruct (descriptors first); [ congruence | discriminate ]. }
    destruct (forallb is_string (features first)); [ | exact Hnames ].
    rewrite <- Hnames. symmetry. apply Forall2_same_names.
    pose proof (loop_later try_parse_float null_like_values capture_columns
                  max_capture_count
                  (fun fs fs' => column_name fs = column_name fs')
                  ltac:(reflexivity) ltac:(intros; congruence)
                  ltac:(intros; symmetry; apply column_name_cell)
                  (first :: rest) columns1 Hne1) as H.
    cbn [analyze_loop] in H.
    destruct columns1 as [| fs0 columns0]; [ congruence | ].
    cbn [allocate] in H. exact H.
  - intros Hd Hall. unfold analyze_dataset. cbn [analyze_loop allocate].
    rewrite Hd, (forallb_is_string_true _ Hall). reflexivity.
Qed.

(** Unique values are captured for the columns of [capture_columns] only,
    and the overflow flag means a full set: in the vector the driver ends
    with, a column whose index is not in [capture_columns] has an empty set
    and a false flag, and a column whose flag is true is a capture column
    that holds [max_capture_count] values. *)
Theorem overflow_only_on_full_capture_columns
    (reader : list example) (i : nat) (fs : column_analysis) :
  outcome_columns (run reader) !! i = Some fs ->
  (N.of_nat i ∉ capture_columns ->
   string_captured_unique_values fs = ∅ /\
   string_captured_unique_values_overflowed fs = false) /\
  (string_captured_unique_values_overflowed fs = true ->
   N.of_nat i ∈ capture_columns /\
   N.of_nat (size (string_captured_unique_values fs)) = max_capture_count).
Proof.
  intros Hi.
  destruct (dataset_columns_reachable _ _ _ _ reader i fs Hi) as (nm & l & ->).
  assert (Hnot : N.of_nat i ∉ capture_columns ->
            string_captured_unique_values
              (analyze_cells try_parse_float null_like_values max_capture_count
                 (bool_decide (N.of_nat i ∈ capture_columns))
                 (new_column_analysis nm) l) = ∅ /\
            string_captured_unique_values_overflowed
              (analyze_cells try_parse_float null_like_values max_capture_count
                 (bool_decide (N.of_nat i ∈ capture_columns))
                 (new_column_analysis nm) l) = false).
  { intros Hout. rewrite (bool_decide_eq_false_2 _ Hout).
    apply (cells_invariant try_parse_float null_like_values max_capture_count
             (fun fs => string_captured_unique_values fs = ∅ /\
                        string_captured_unique_values_overflowed fs = false)).
    - intros fs c [Hc Ho]. rewrite cell_captured, cell_overflowed, Hc, Ho. auto.
    - auto. }
  split; [ exact Hnot | ].
  intros Hov. destruct (decide (N.of_nat i ∈ capture_columns)) as [Hin | Hout].
  - split; [ exact Hin | ].
    rewrite (bool_decide_eq_true_2 _ Hin) in Hov |- *.
    pose proof (tracks_cells try_parse_float null_like_values max_capture_count
                  l _ _ (capture_tracks_new max_capture_count nm)) as [Hle Hgt].
    destruct (N.le_gt_cases
                (N.of_nat (size (list_to_set l ∪ ∅ : gset string)))
                max_capture_count) as [HD | HD].
    + destruct (Hle HD) as [_ Hf]. congruence.
    + now destruct (Hgt HD) as (_ & Hsize & _).
  - destruct (Hnot Hout) as [_ Hf]. congruence.
Qed.


End DriverShape.

(** Two names first, then a batch without columns: the exception leaves
    both accumulators, under their names. *)
Lemma columns_fixed_by_first_schema_witness :
  let str cells := {| dtype := dt_string; cells_of := cells |} in
  let first := {| descriptors := [ {| name := "a" |}; {| name := "b" |} ];
                  features := [ str ["1"]; str ["x"] ] |} in
  let second := {| descriptors := []; features := [] |} in
  column_name <$> outcome_columns (analyze_dataset parse_decimal ∅ ∅ 5000 [first; second])
  = ["a"; "b"]%string.
Proof.
  cbn zeta.
  apply (columns_fixed_by_first_schema parse_decimal ∅ ∅ 5000).
  discriminate.
Defined.

(** One capture column, bound 2, three distinct cells. *)
Lemma overflow_only_on_full_capture_columns_witness :
  let fs := analyze_cells parse_decimal ∅ 2 true (new_column_analysis "a")
              ["a"; "b"; "c"]%string in
  (0%N ∉ ({[ 0%N ]} : gset N) ->
   string_captured_unique_values fs = ∅ /\
   string_captured_unique_values_overflowed fs = false) /\
  (string_captured_unique_values_overflowed fs = true ->
   0%N ∈ ({[ 0%N ]} : gset N) /\
   N.of_nat (size (string_captured_unique_values fs)) = 2%N).
Proof.
  cbn zeta.
  apply (overflow_only_on_full_capture_columns parse_decimal ∅ {[ 0%N ]} 2
           [ {| descriptors := [ {| name := "a" |} ];
                features := [ {| dtype := dt_string;
                                 cells_of := ["a"; "b"; "c"]%string |} ] |} ] 0).
  reflexivity.
Defined.

(** The rows "1", "2" in two batches or in one. *)
Lemma batch_grouping_is_irrelevant_witness :
  let batch cells := {| descriptors := [ {| name := "a" |} ];
                        features := [ {| dtype := dt_string; cells_of := cells |} ] |} in
  analyze_dataset parse_decimal ∅ ∅ 5000 [batch ["1"]; batch ["2"]]%string
  = analyze_dataset parse_decimal ∅ ∅ 5000 [batch ["1"; "2"]]%string.
Proof.
  cbn zeta.
  apply (batch_grouping_is_irrelevant parse_decimal ∅ ∅ 5000).
  - reflexivity.
  - cbn; lia.
  - cbn; lia.
  - cbn; lia.
  - repeat constructor.
  - repeat constructor.
  - repeat constructor; cbn; lia.
  - constructor.
  - intros [| i] Hi; [ reflexivity | cbn in Hi; lia ].
Defined.

(** ** The dictionary export *)

(** [to_dict] has one entry per name of the three tables and no other: each
    [long] statistic under its name as a decimal string, each [double]
    statistic through [std::to_string], [example_value] as it is; thirteen
    keys in all.  The column's name, its captured values and its overflow
    flag are not exported. *)
Theorem to_dict_exports_the_statistics
    (to_string_double : float -> string) (ca : column_analysis) :
  let result := to_dict to_string_double ca in
  (forall name method, (name, method) ∈ long_statistic_names ->
     result !! name = Some (to_string_long (method ca))) /\
  (forall name method, (name, method) ∈ double_statistic_names ->
     result !! name = Some (to_string_double (method ca))) /\
  (forall name method, (name, method) ∈ string_statistic_names ->
     result !! name = Some (method ca)) /\
  size result = 13%nat /\
  result !! "column_name" = None /\
  result !! "string_captured_unique_values" = None /\
  result !! "string_captured_unique_values_overflowed" = None.
Proof.
  cbn zeta. unfold to_dict. cbn [foldl long_statistic_names double_statistic_names
                                 string_statistic_names].
  split; [ | split; [ | split; [ | split ] ] ].
  - intros nm method Hin.
    repeat (apply elem_of_cons in Hin as [Hin | Hin];
            [ injection Hin as -> ->; by simplify_map_eq | ]).
    by apply elem_of_nil in Hin.
  - intros nm method Hin.
    repeat (apply elem_of_cons in Hin as [Hin | Hin];
            [ injection Hin as -> ->; by simplify_map_eq | ]).
    by apply elem_of_nil in Hin.
  - intros nm method Hin.
    repeat (apply elem_of_cons in Hin as [Hin | Hin];
            [ injection Hin as -> ->; by simplify_map_eq | ]).
    by apply elem_of_nil in Hin.
  - repeat (rewrite map_size_insert_None; [ | by simplify_map_eq ]).
    by rewrite map_size_empty.
  - repeat split; by simplify_map_eq.
Qed.

(** ** [numeric_max] is the running maximum *)

Section FloatOrder.

Lemma SFcompare_lt_trans a b c :
  SFcompare a b = Some Lt -> SFcompare b c = Some Lt -> SFcompare a c = Some Lt.
Proof.
  destruct a as [sa | sa | | sa ma ea], b as [sb | sb | | sb mb eb],
           c as [sc | sc | | sc mc ec];
    cbn; try discriminate; try (destruct sa, sb; discriminate);
    try (destruct sb, sc; discriminate); try (destruct sa, sc; discriminate);
    try (destruct sa, sb, sc; cbn; congruence).
  destruct sa, sb, sc; cbn; try congruence;
    change (Pos.compare_cont Eq ma mb) with (ma ?= mb)%positive;
    change (Pos.compare_cont Eq mb mc) with (mb ?= mc)%positive;
    change (Pos.compare_cont Eq ma mc) with (ma ?= mc)%positive;
    destruct (Z.compare_spec ea eb), (Z.compare_spec eb ec), (Z.compare_spec ea ec);
    try congruence; try lia;
    destruct (Pos.compare_spec ma mb), (Pos.compare_spec mb mc),
             (Pos.compare_spec ma mc); cbn; try congruence; lia.
Qed.

Lemma SFcompare_refl a : a <> S754_nan -> SFcompare a a = Some Eq.
Proof.
  destruct a as [s | s | | s m e]; cbn; try congruence; intros _.
  - now destruct s.
  - change (Pos.compare_cont Eq m m) with (m ?= m)%positive.
    rewrite Z.compare_refl, Pos.compare_refl. now destruct s.
Qed.

Lemma is_nan_SF x : is_nan x = true <-> Prim2SF x = S754_nan.
Proof.
  unfold is_nan. rewrite FloatAxioms.eqb_spec. unfold SFeqb. split.
  - destruct (Prim2SF x) eqn:E; [ | | reflexivity | ];
      rewrite SFcompare_refl by discriminate; discriminate.
  - intros ->. reflexivity.
Qed.

Lemma float_ltb_trans x y z :
  (x <? y)%float = true -> (y <? z)%float = true -> (x <? z)%float = true.
Proof.
  rewrite !FloatAxioms.ltb_spec. unfold SFltb.
  destruct (SFcompare (Prim2SF x) (Prim2SF y)) as [[] |] eqn:E1; try discriminate.
  destruct (SFcompare (Prim2SF y) (Prim2SF z)) as [[] |] eqn:E2; try discriminate.
  now rewrite (SFcompare_lt_trans _ _ _ E1 E2).
Qed.

Lemma float_ltb_irrefl x : (x <? x)%float = false.
Proof.
  rewrite FloatAxioms.ltb_spec. unfold SFltb.
  destruct (Prim2SF x) eqn:E; try reflexivity;
    rewrite SFcompare_refl by discriminate; reflexivity.
Qed.

Lemma float_ltb_nan_l x y : is_nan x = true -> (x <? y)%float = false.
Proof.
  rewrite is_nan_SF, FloatAxioms.ltb_spec. intros ->. reflexivity.
Qed.

Lemma float_ltb_nan_r x y : is_nan y = true -> (x <? y)%float = false.
Proof.
  rewrite is_nan_SF, FloatAxioms.ltb_spec. intros ->.
  unfold SFltb. now destruct (Prim2SF x).
Qed.

Lemma float_ltb_not_nan_r x y : (x <? y)%float = true -> is_nan y = false.
Proof.
  intros H. destruct (is_nan y) eqn:E; [ | reflexivity ].
  rewrite (float_ltb_nan_r x y E) in H. discriminate.
Qed.

End FloatOrder.

Section RunningMax.

Context (try_parse_float : string -> option float)
        (null_like_values : gset string)
        (max_capture_count : N)
        (should_capture : bool).

Local Abbreviation cells :=
  (analyze_cells try_parse_float null_like_values max_capture_count should_capture).

(** The update of [numeric_max] by a parsed value keeps it the maximum. *)
Lemma running_max_step m seen w :
  running_max m seen ->
  running_max (if is_nan m || (m <? w)%float then w else m) (seen ++ [w]).
Proof.
  unfold running_max. intros [[Hm Hseen] | (Hm & Hin & Hmax)]; rewrite Hm; cbn [orb].
  - destruct (is_nan w) eqn:Hw.
    + left. split; [ reflexivity | ].
      apply Forall_app. split; [ exact Hseen | ].
      constructor; [ exact Hw | constructor ].
    + right. split; [ reflexivity | split ].
      * apply elem_of_app. right. now left.
      * apply Forall_app. split.
        -- eapply Forall_impl; [ exact Hseen | ].
           intros v Hv. now apply float_ltb_nan_r.
        -- constructor; [ apply float_ltb_irrefl | constructor ].
  - destruct (m <? w)%float eqn:Hlt; right.
    + split; [ now apply (float_ltb_not_nan_r m w) | split ].
      * apply elem_of_app. right. now left.
      * apply Forall_app. split.
        -- eapply Forall_impl; [ exact Hmax | ].
           intros v Hv. cbn beta in Hv.
           destruct (w <? v)%float eqn:Hwv; [ | reflexivity ].
           rewrite (float_ltb_trans m w v Hlt Hwv) in Hv. discriminate.
        -- constructor; [ apply float_ltb_irrefl | constructor ].
    + split; [ exact Hm | split ].
      * apply elem_of_app. now left.
      * apply Forall_app. split; [ exact Hmax | ].
        constructor; [ exact Hlt | constructor ].
Qed.

Lemma running_max_cells l : forall fs seen,
  running_max (numeric_max fs) seen ->
  running_max (numeric_max (cells fs l)) (seen ++ omap try_parse_float l).
Proof.
  unfold analyze_cells.
  induction l as [| c l IH]; intros fs seen Hfs; cbn [foldl omap list_omap].
  - now rewrite app_nil_r.
  - destruct (try_parse_float c) as [w |] eqn:Hw.
    + rewrite (cons_middle w), app_assoc. apply IH.
      rewrite cell_numeric_max, Hw. now apply running_max_step.
    + apply IH. rewrite cell_numeric_max, Hw. exact Hfs.
Qed.

(** [numeric_max] over the values [parsed] that the cells of a column parse
    to, in a fold from the constructor's state: it is absent (NaN) when no
    value, or no value other than NaN, has been parsed; otherwise it is one
    of the parsed values, it is not NaN, and no parsed value is greater:
    the maximum. *)
Theorem numeric_max_is_running_maximum (name : string) (l : list string) :
  let m := numeric_max (cells (new_column_analysis name) l) in
  let parsed := omap try_parse_float l in
  (Forall (fun v => is_nan v = true) parsed -> is_nan m = true) /\
  (Exists (fun v => is_nan v = false) parsed ->
   m ∈ parsed /\ is_nan m = false /\ Forall (fun v => (m <? v)%float = false) parsed).
Proof.
  cbn zeta.
  assert (H0 : running_max (numeric_max (new_column_analysis name)) []).
  { left. split; [ reflexivity | constructor ]. }
  pose proof (running_max_cells l _ _ H0) as H. cbn [app] in H.
  destruct H as [[Hm Hall] | (Hm & Hin & Hmax)]; split.
  - intros _. exact Hm.
  - intros Hex. apply Exists_exists in Hex as (v & Hv & Hnan).
    rewrite Forall_forall in Hall. rewrite (Hall v Hv) in Hnan. discriminate.
  - intros Hall. rewrite Forall_forall in Hall. apply (Hall _ Hin).
  - intros _. auto.
Qed.

End RunningMax.

(** The cells "2", "abc", "10", "3": the maximum of 2, 10 and 3. *)
Lemma numeric_max_is_running_maximum_witness :
  let m := numeric_max (analyze_cells parse_decimal ∅ 5000 false
                          (new_column_analysis "x") ["2"; "abc"; "10"; "3"]%string) in
  let parsed := omap parse_decimal ["2"; "abc"; "10"; "3"]%string in
  m ∈ parsed /\ is_nan m = false /\ Forall (fun v => (m <? v)%float = false) parsed.
Proof.
  cbn zeta.
  apply (numeric_max_is_running_maximum parse_decimal ∅ 5000 false "x").
  apply Exists_cons. left. reflexivity.
Defined.

Lemma numeric_count_unparsed parse nlv max sc l : forall fs,
  Forall (fun c => parse c = None) l ->
  numeric_count (analyze_cells parse nlv max sc fs l) = numeric_count fs.
Proof.
  unfold analyze_cells.
  induction l as [| c l IH]; intros fs Hall; cbn [foldl]; [ reflexivity | ].
  inversion Hall as [| ? ? Hc Hl]; subst.
  rewrite IH by exact Hl.
  now destruct (cell_not_parsed parse nlv max sc fs c Hc) as [_ ->].
Qed.

(** A column none of whose cells parses: [numeric_min] and [numeric_max]
    are absent (NaN) and [numeric_count] is 0 after the fold. *)
Theorem numeric_range_absent_on_unparsed_column
    (try_parse_float : string -> option float) (null_like_values : gset string)
    (max_capture_count : N) (should_capture : bool)
    (name : string) (l : list string) :
  Forall (fun c => try_parse_float c = None) l ->
  let fs := analyze_cells try_parse_float null_like_values max_capture_count
              should_capture (new_column_analysis name) l in
  is_nan (numeric_min fs) = true /\ is_nan (numeric_max fs) = true /\
  numeric_count fs = 0.
Proof.
  intros Hall. cbn zeta.
  destruct (numeric_range_absent_until_parsed try_parse_float null_like_values
              max_capture_count should_capture l (new_column_analysis name) Hall
              eq_refl eq_refl) as [-> ->].
  rewrite numeric_count_unparsed by exact Hall.
  repeat split.
Qed.

(** The cells "", "  " and "abc". *)
Lemma numeric_range_absent_on_unparsed_column_witness :
  let fs := analyze_cells parse_decimal ∅ 5000 false (new_column_analysis "x")
              [""; "  "; "abc"]%string in
  is_nan (numeric_min fs) = true /\ is_nan (numeric_max fs) = true /\
  numeric_count fs = 0.
Proof.
  apply (numeric_range_absent_on_unparsed_column parse_decimal ∅ 5000 false "x").
  repeat constructor.
Defined.
